(** * Railway gap filler: the two Arduino sketches, embedded and verified

    The repository holds two sketches for the same device:

    - [railway_gap_filler.ino], the debounced controller (two servos, LEDs,
      buzzer, three distance bands, two debounce counters);
    - a simpler single-threshold sketch (one servo, one comparison per
      iteration, no counters).

    Both target the ATmega328P (Arduino Uno/Nano).  On that target [int] is a
    16-bit two's complement integer, [long] is 32 bits wide, and both [float]
    and [double] are IEEE-754 binary32.  The embedding below follows these
    widths: [int] counters are [Z] with the wrap-around written out, floats
    are [spec_float] values operated on with precision 24 and [emax] 128.

    Serial output is purely observational and is left out, and so is the
    trigger pulse that precedes [pulseIn]: an iteration takes what [pulseIn]
    returned as its input.  Every other hardware write (servo, LED, buzzer,
    delay) is recorded as an [event].  The trigger pulse and the wait in
    [pulseIn] are accounted for apart, by [measureDistance_on]. *)

From Stdlib Require Import ZArith QArith Qabs List Bool Lia.
From Stdlib Require Import Floats.SpecFloat.
Import ListNotations.
Open Scope Z_scope.

(** ** binary32 arithmetic, as avr-gcc gives to [float] and [double] *)

Module F32.

Definition prec : Z := 24.
Definition emax : Z := 128.

Definition float := spec_float.

(** Conversion of an integer ([int], [long]) to [float]. *)
Definition of_Z (n : Z) : float := binary_normalize prec emax n 0 false.

Definition mul : float -> float -> float := SFmul prec emax.
Definition div : float -> float -> float := SFdiv prec emax.

(** [a < b] and [a <= b] on floats; [a > b] is [ltb b a], [a >= b] is
    [leb b a].  Any comparison with a NaN is false. *)
Definition ltb : float -> float -> bool := SFltb.
Definition leb : float -> float -> bool := SFleb.

(** A decimal literal [n / 10^k], rounded to the nearest binary32. *)
Definition decimal (n : Z) (k : Z) : float := div (of_Z n) (of_Z (10 ^ k)).

(** Conversion of a float to an integer type: the fractional part is
    discarded (truncation toward zero). *)
Definition to_Z (x : float) : Z :=
  match x with
  | S754_finite s m e =>
      let a := match e with
               | Zneg p => Z.shiftr (Zpos m) (Zpos p)
               | _ => Z.shiftl (Zpos m) e
               end in
      if s then - a else a
  | _ => 0
  end.

(** The rational number a finite float denotes (0 for the others). *)
Definition to_Q (x : float) : Q :=
  match x with
  | S754_finite s m e =>
      let q := match e with
               | Zneg p => Qmake (Zpos m) (2 ^ p)
               | _ => inject_Z (Z.shiftl (Zpos m) e)
               end in
      if s then Qopp q else q
  | _ => 0%Q
  end.

Definition is_finite (x : float) : bool :=
  match x with
  | S754_zero _ | S754_finite _ _ _ => true
  | _ => false
  end.

End F32.

(** ** 16-bit [int], as on the ATmega328P *)

Module Int16.

Definition min_int : Z := -32768.
Definition max_int : Z := 32767.

(** Reduction of a mathematical result into the 16-bit two's complement
    range.  Signed overflow is undefined in C++; the code avr-gcc emits for
    [x++] on a global [int] wraps, which is what [wrap] writes out. *)
Definition wrap (x : Z) : Z := (x + 32768) mod 65536 - 32768.

(** [x++] *)
Definition incr (x : Z) : Z := wrap (x + 1).

Definition in_range (x : Z) : Prop := min_int <= x <= max_int.

End Int16.

(** ** Hardware writes *)

Inductive event : Type :=
| ServoWrite (pin : Z) (angle : Z)      (* servoN.write(angle)       *)
| DigitalWrite (pin : Z) (level : bool) (* digitalWrite(pin, level)  *)
| Delay (ms : Z).                       (* delay(ms)                 *)

Definition HIGH : bool := true.
Definition LOW : bool := false.

(** The last angle written to the servo on [pin], if any. *)
Fixpoint last_servo_write (pin : Z) (tr : list event) : option Z :=
  match tr with
  | [] => None
  | ev :: rest =>
      match last_servo_write pin rest with
      | Some a => Some a
      | None =>
          match ev with
          | ServoWrite p a => if p =? pin then Some a else None
          | _ => None
          end
      end
  end.

(** ** The echo pin and [pulseIn] *)

(** Modelled from the spec: the echo pin of the range sensor, which the
    sketches only read.  The level of the pin at each microsecond, counted
    from the moment [pulseIn] is called. *)
Definition signal : Type := nat -> bool.

(** No echo: the pin stays LOW. *)
Definition silent : signal := fun _ => false.

(** An echo: the pin goes HIGH [start] microseconds after the call and
    stays HIGH for [width] microseconds. *)
Definition pulse (start width : nat) : signal :=
  fun t => (start <=? t)%nat && (t <? start + width)%nat.

(** Modelled from the spec: where a call of [pulseIn] stands.  It first lets
    a pulse that is already in progress end, then waits for the pin to go
    HIGH, then times how long it stays HIGH. *)
Inductive pulse_phase : Type :=
| Settling
| Waiting
| Timing (width : Z).

(** Modelled from the spec: the polling loop of [pulseIn (pin, HIGH,
    timeout)], a function of the Arduino core that the sketches call and the
    repository does not contain.  The pin is read once per microsecond;
    [budget] is what is left of the timeout and [t] the time since the call.
    The result is the pulse width in microseconds with the time spent, and
    the width is 0 when the timeout runs out before a complete pulse has
    been seen. *)
Fixpoint pulse_poll (budget : nat) (echo : signal) (t : nat) (ph : pulse_phase)
  : Z * nat :=
  match budget with
  | O => (0, t)
  | S budget' =>
      match ph, echo t with
      | Settling, true => pulse_poll budget' echo (S t) Settling
      | Settling, false => pulse_poll budget' echo (S t) Waiting
      | Waiting, false => pulse_poll budget' echo (S t) Waiting
      | Waiting, true => pulse_poll budget' echo (S t) (Timing 1)
      | Timing w, true => pulse_poll budget' echo (S t) (Timing (w + 1))
      | Timing w, false => (w, t)
      end
  end.

(** Modelled from the spec: [pulseIn (pin, HIGH, timeout)] on the echo pin,
    [timeout] in microseconds: the pulse width (0 after a timeout) and the
    microseconds the call took. *)
Definition pulseIn (echo : signal) (timeout : Z) : Z * Z :=
  let '(width, t) := pulse_poll (Z.to_nat timeout) echo O Settling in
  (width, Z.of_nat t).

(** ** The debounced controller: [railway_gap_filler.ino] *)

Module Debounced.

(** Pin definitions *)
Definition TRIG_PIN : Z := 9.
Definition ECHO_PIN : Z := 10.
Definition SERVO1_PIN : Z := 5.
Definition SERVO2_PIN : Z := 6.
Definition LED_GREEN : Z := 2.
Definition LED_RED : Z := 3.
Definition BUZZER_PIN : Z := 4.

(** Configuration parameters *)
Definition THRESHOLD_DISTANCE : Z := 20.
Definition MIN_DISTANCE : Z := 13.
Definition MAX_DISTANCE : Z := 25.
Definition SERVO_RETRACTED : Z := 0.
Definition SERVO_EXTENDED : Z := 90.
Definition DEPLOYMENT_DELAY : Z := 500.
Definition MEASUREMENT_DELAY : Z := 100.
Definition DEBOUNCE_COUNT : Z := 3.

(** Third argument of [pulseIn] in [measureDistance], in microseconds. *)
Definition PULSE_TIMEOUT_US : Z := 30000.

(** Value returned by [measureDistance] when no echo was received:
    the [int] 999 converted to [float]. *)
Definition NO_ECHO : F32.float := Eval vm_compute in F32.of_Z 999.

(** The literal [0.0343] and the divisor [2] (converted to [float]) of
    [measureDistance]. *)
Definition CM_PER_US : F32.float := Eval vm_compute in F32.decimal 343 4.
Definition TWO : F32.float := Eval vm_compute in F32.of_Z 2.

(** Global variables *)
Record globals : Type := mkGlobals {
  platformDeployed : bool;
  consecutiveDetections : Z;
  consecutiveNoDetections : Z;
  distance : F32.float
}.

(** State after the global initialisers have run. *)
Definition initial : globals :=
  {| platformDeployed := false;
     consecutiveDetections := 0;
     consecutiveNoDetections := 0;
     distance := F32.of_Z 0 |}.

Definition playBeep (duration : Z) : list event :=
  [DigitalWrite BUZZER_PIN HIGH; Delay duration; DigitalWrite BUZZER_PIN LOW].

(** Hardware writes of [setup]. *)
Definition setup : list event :=
  [ServoWrite SERVO1_PIN SERVO_RETRACTED; ServoWrite SERVO2_PIN SERVO_RETRACTED;
   DigitalWrite LED_GREEN HIGH; DigitalWrite LED_RED LOW]
  ++ playBeep 100 ++ [Delay 100] ++ playBeep 100 ++ [Delay 1000].

(** [measureDistance], as a function of what [pulseIn (ECHO_PIN, HIGH,
    30000)] returned: the echo pulse width in microseconds, or 0 when the
    pulse did not complete within the timeout. *)
Definition measureDistance (duration : Z) : F32.float :=
  let dist := F32.div (F32.mul (F32.of_Z duration) CM_PER_US) TWO in
  if duration =? 0 then NO_ECHO else dist.

(** One pass of a sweep loop body: both servos, then the 15 ms pause. *)
Definition sweep_step (angle : Z) : list event :=
  [ServoWrite SERVO1_PIN angle; ServoWrite SERVO2_PIN angle; Delay 15].

Definition sweep_length : nat := Z.to_nat (SERVO_EXTENDED - SERVO_RETRACTED + 1).

(** [for (angle = SERVO_RETRACTED; angle <= SERVO_EXTENDED; angle++)] *)
Definition sweep_up : list event :=
  flat_map sweep_step
    (map (fun k => SERVO_RETRACTED + Z.of_nat k) (seq 0 sweep_length)).

(** [for (angle = SERVO_EXTENDED; angle >= SERVO_RETRACTED; angle--)] *)
Definition sweep_down : list event :=
  flat_map sweep_step
    (map (fun k => SERVO_EXTENDED - Z.of_nat k) (seq 0 sweep_length)).

Definition set_deployed (b : bool) (g : globals) : globals :=
  mkGlobals b (consecutiveDetections g) (consecutiveNoDetections g) (distance g).
Definition set_detections (n : Z) (g : globals) : globals :=
  mkGlobals (platformDeployed g) n (consecutiveNoDetections g) (distance g).
Definition set_no_detections (n : Z) (g : globals) : globals :=
  mkGlobals (platformDeployed g) (consecutiveDetections g) n (distance g).
Definition set_distance (d : F32.float) (g : globals) : globals :=
  mkGlobals (platformDeployed g) (consecutiveDetections g) (consecutiveNoDetections g) d.

Definition deployPlatform (g : globals) : globals * list event :=
  (set_deployed true g,
   playBeep 200
   ++ [DigitalWrite LED_GREEN LOW; DigitalWrite LED_RED HIGH]
   ++ sweep_up
   ++ playBeep 100 ++ [Delay 50] ++ playBeep 100).

Definition retractPlatform (g : globals) : globals * list event :=
  (set_deployed false g,
   playBeep 150
   ++ sweep_down
   ++ [DigitalWrite LED_GREEN HIGH; DigitalWrite LED_RED LOW]
   ++ playBeep 100).

(** The conditions [loop] tests on the measured distance:
    [distance >= MIN_DISTANCE && distance <= THRESHOLD_DISTANCE] and
    [distance > MAX_DISTANCE]. *)
Definition in_band (d : F32.float) : bool :=
  F32.leb (F32.of_Z MIN_DISTANCE) d && F32.leb d (F32.of_Z THRESHOLD_DISTANCE).

Definition beyond_max (d : F32.float) : bool :=
  F32.ltb (F32.of_Z MAX_DISTANCE) d.

(** [distance < MIN_DISTANCE]: closer than the band. *)
Definition below_min (d : F32.float) : bool :=
  F32.ltb d (F32.of_Z MIN_DISTANCE).

(** [loop] from the point where [measureDistance] has returned [d]. *)
Definition loop_on (g : globals) (d : F32.float) : globals * list event :=
  let g := set_distance d g in
  let '(g, out) :=
    if in_band (distance g) then
      let g := set_detections (Int16.incr (consecutiveDetections g)) g in
      let g := set_no_detections 0 g in
      if (DEBOUNCE_COUNT <=? consecutiveDetections g) && negb (platformDeployed g) then
        let '(g, out) := deployPlatform g in
        (set_detections 0 g, out)
      else (g, [])
    else if beyond_max (distance g) then
      let g := set_no_detections (Int16.incr (consecutiveNoDetections g)) g in
      let g := set_detections 0 g in
      if (DEBOUNCE_COUNT <=? consecutiveNoDetections g) && platformDeployed g then
        let '(g, out) := retractPlatform g in
        (set_no_detections 0 g, out)
      else (g, [])
    else
      let g := set_detections 0 g in
      let g := set_no_detections 0 g in
      (g, [])
  in (g, out ++ [Delay MEASUREMENT_DELAY]).

(** One full iteration of [loop], given what [pulseIn] returned. *)
Definition loop (g : globals) (duration : Z) : globals * list event :=
  loop_on g (measureDistance duration).

(** State after one iteration on a distance sample. *)
Definition step (g : globals) (d : F32.float) : globals := fst (loop_on g d).

(** State after feeding a sequence of distance samples, oldest first. *)
Definition run (g : globals) (samples : list F32.float) : globals :=
  fold_left step samples g.

(** The states after the first, second, ... sample. *)
Fixpoint history (g : globals) (samples : list F32.float) : list globals :=
  match samples with
  | [] => []
  | d :: rest => step g d :: history (step g d) rest
  end.

(** Everything written to the hardware while the samples are processed. *)
Fixpoint trace (g : globals) (samples : list F32.float) : list event :=
  match samples with
  | [] => []
  | d :: rest => snd (loop_on g d) ++ trace (step g d) rest
  end.

(** A whole-centimetre sample. *)
Definition cm (n : Z) : F32.float := F32.of_Z n.

(** Platform deployed, both counters zero. *)
Definition deployed_idle : globals := mkGlobals true 0 0 (cm 0).

(** The state [deployPlatform] leaves behind. *)
Definition deployed_by (g : globals) : globals := fst (deployPlatform g).

(** Number of leading elements satisfying [p]; on a reversed sample list
    this is the length of the run of most recent samples satisfying [p]. *)
Fixpoint streak (p : F32.float -> bool) (newest_first : list F32.float) : nat :=
  match newest_first with
  | [] => O
  | d :: older => if p d then S (streak p older) else O
  end.

(** The [n] most recent samples of [samples] all satisfy [p]. *)
Definition ends_with_run (p : F32.float -> bool) (n : nat) (samples : list F32.float) : Prop :=
  exists older recent,
    samples = older ++ recent /\ length recent = n /\
    Forall (fun d => p d = true) recent.

(** What connects the counters to the samples seen so far. *)
Definition counts_recent (samples : list F32.float) (g : globals) : Prop :=
  Int16.min_int <= consecutiveDetections g <= Z.of_nat (streak in_band (rev samples)) /\
  Int16.min_int <= consecutiveNoDetections g <= Z.of_nat (streak beyond_max (rev samples)).

(** The counter that drives the next transition stays below the debounce
    count; the other one is unconstrained. *)
Definition driving_counter_bounded (g : globals) : Prop :=
  (platformDeployed g = false -> 0 <= consecutiveDetections g < DEBOUNCE_COUNT) /\
  (platformDeployed g = true -> 0 <= consecutiveNoDetections g < DEBOUNCE_COUNT).


(** On the [n] whole-centimetre samples from [k] on, the float comparisons
    of [loop] agree with the integer comparisons against the constants. *)
Fixpoint whole_cm_agree (n : nat) (k : Z) : bool :=
  match n with
  | O => true
  | S n' =>
      Bool.eqb (in_band (cm k)) ((MIN_DISTANCE <=? k) && (k <=? THRESHOLD_DISTANCE))
      && Bool.eqb (beyond_max (cm k)) (MAX_DISTANCE <? k)
      && Bool.eqb (below_min (cm k)) (k <? MIN_DISTANCE)
      && whole_cm_agree n' (k + 1)
  end.

(** The exact one-way distance for a round trip of [duration]
    microseconds at 0.0343 cm per microsecond. *)
Definition exact_distance (duration : Z) : Q :=
  (inject_Z duration * (343 # 10000) / 2)%Q.

(** [x] is within one part in 2^23 of the positive rational [q]. *)
Definition close_to (x : F32.float) (q : Q) : bool :=
  F32.is_finite x && Qle_bool (Qabs (F32.to_Q x - q) * inject_Z (2 ^ 23)) q.

(** [duration * 0.0343]: the float product [measureDistance] halves. *)
Definition scaled (duration : Z) : F32.float :=
  F32.mul (F32.of_Z duration) CM_PER_US.

(** A normal float (24-bit mantissa) whose half is normal as well. *)
Definition halvable (x : F32.float) : bool :=
  match x with
  | S754_finite _ m e => (digits2_pos m =? 24)%positive && (-147 <=? e) && (e <=? 105)
  | _ => false
  end.

(** The half of a [halvable] float: same mantissa, exponent one lower. *)
Definition halve (x : F32.float) : F32.float :=
  match x with
  | S754_finite s m e => S754_finite s m (e - 1)
  | _ => x
  end.

(** The closeness test in integers, for the float [m * 2^-p]:
    [|20000 m - 343 d 2^p| * 2^23 <= 343 d 2^p]. *)
Definition near (m p : positive) (d : Z) : bool :=
  Z.shiftl (Z.abs (Z.pos m * 20000 - Z.shiftl (343 * d) (Z.pos p))) 23
  <=? Z.shiftl (343 * d) (Z.pos p).

Definition half_near (x : F32.float) (d : Z) : bool :=
  match halve x with
  | S754_finite false m (Zneg p) => near m p d
  | _ => false
  end.

(** For the [n] durations from [d] on, the product is [halvable] and its
    half passes the closeness test. *)
Fixpoint accurate_from (n : nat) (d : Z) : bool :=
  match n with
  | O => true
  | S k => halvable (scaled d) && half_near (scaled d) d && accurate_from k (d + 1)
  end.

(** [updateLEDs]: defined in the sketch and never called. *)
Definition updateLEDs (g : globals) : list event :=
  if platformDeployed g
  then [DigitalWrite LED_GREEN LOW; DigitalWrite LED_RED HIGH]
  else [DigitalWrite LED_GREEN HIGH; DigitalWrite LED_RED LOW].

(** What [deployPlatform] and [retractPlatform] write; neither depends on
    the state it is called in. *)
Definition deploy_events : list event := snd (deployPlatform initial).
Definition retract_events : list event := snd (retractPlatform initial).

(** State after feeding a sequence of [pulseIn] results to [loop]. *)
Definition run_echoes (g : globals) (durations : list Z) : globals :=
  fold_left (fun g duration => fst (loop g duration)) durations g.

(** The branch of [loop] a sample takes. *)
Inductive reading : Type := InBand | Beyond | Between.

Definition classify (d : F32.float) : reading :=
  if in_band d then InBand else if beyond_max d then Beyond else Between.

(** The controller as a finite automaton: the deployment flag together with
    the counter that can trigger the next transition. *)
Inductive phase : Type :=
| Monitoring (detections : Z)
| Deployed (noDetections : Z).

Definition automaton_step (p : phase) (r : reading) : phase :=
  match p, r with
  | Monitoring k, InBand =>
      if DEBOUNCE_COUNT <=? k + 1 then Deployed 0 else Monitoring (k + 1)
  | Monitoring _, _ => Monitoring 0
  | Deployed k, Beyond =>
      if DEBOUNCE_COUNT <=? k + 1 then Monitoring 0 else Deployed (k + 1)
  | Deployed _, _ => Deployed 0
  end.

Definition phase_of (g : globals) : phase :=
  if platformDeployed g
  then Deployed (consecutiveNoDetections g)
  else Monitoring (consecutiveDetections g).

(** The branch tests of [loop] on the half of a [halvable] product [x],
    against the pulse width [d] in microseconds. *)
Definition bands_at (x : F32.float) (d : Z) : bool :=
  match x with
  | S754_finite s m e =>
      halvable (S754_finite s m e)
      && Bool.eqb (in_band (S754_finite s m (e - 1))) ((759 <=? d) && (d <=? 1166))
      && Bool.eqb (beyond_max (S754_finite s m (e - 1))) (1458 <=? d)
      && Bool.eqb (below_min (S754_finite s m (e - 1))) (d <=? 758)
  | _ => false
  end.

(** [bands_at] for the [n] durations from [d] on. *)
Fixpoint bands_from (n : nat) (d : Z) : bool :=
  match n with
  | O => true
  | S k => bands_at (scaled d) d && bands_from k (d + 1)
  end.

(** Number of iterations, over [samples], that change [platformDeployed]:
    each of them runs one sweep. *)
Fixpoint transitions (g : globals) (samples : list F32.float) : Z :=
  match samples with
  | [] => 0
  | d :: rest =>
      (if Bool.eqb (platformDeployed (step g d)) (platformDeployed g) then 0 else 1)
      + transitions (step g d) rest
  end.

(** The counter that can trigger the next transition. *)
Definition driving_counter (g : globals) : Z :=
  if platformDeployed g then consecutiveNoDetections g else consecutiveDetections g.

(** What a call of [measureDistance] amounts to when the echo pin behaves
    as [echo]: the value returned, the writes of the trigger pulse, and the
    microseconds spent in the two [delayMicroseconds] and in [pulseIn]. *)
Record measurement : Type := mkMeasurement {
  returned : F32.float;
  trigger_writes : list event;
  micros : Z
}.

Definition measureDistance_on (echo : signal) : measurement :=
  let '(duration, waited) := pulseIn echo PULSE_TIMEOUT_US in
  mkMeasurement
    (measureDistance duration)
    [DigitalWrite TRIG_PIN LOW; DigitalWrite TRIG_PIN HIGH; DigitalWrite TRIG_PIN LOW]
    (2 + 10 + waited).

End Debounced.

(** ** The single-threshold sketch *)

Module Simple.

Definition trigPin : Z := 9.
Definition echoPin : Z := 10.
Definition servoPin : Z := 11.

(** Global variables *)
Record globals : Type := mkGlobals {
  duration : Z;
  distance : Z
}.

Definition initial : globals := mkGlobals 0 0.

(** Hardware writes of [setup]. *)
Definition setup : list event := [ServoWrite servoPin 0].

(** The literal [0.034] and the divisor [2] (converted to [float]). *)
Definition CM_PER_US : F32.float := Eval vm_compute in F32.decimal 34 3.
Definition TWO : F32.float := Eval vm_compute in F32.of_Z 2.

(** [duration * 0.034 / 2], computed in floating point and stored into
    the [long] variable [distance]. *)
Definition distance_of (duration : Z) : Z :=
  F32.to_Z (F32.div (F32.mul (F32.of_Z duration) CM_PER_US) TWO).

(** The deploy-or-retract decision of [loop] on the stored distance. *)
Definition actuate (distance : Z) : list event :=
  if (0 <? distance) && (distance <? 25)
  then [ServoWrite servoPin 90]
  else [ServoWrite servoPin 0].

(** One iteration of [loop], given what [pulseIn (echoPin, HIGH)]
    returned: the pulse width in microseconds, or 0 without an echo. *)
Definition loop (g : globals) (echo : Z) : globals * list event :=
  let g := mkGlobals echo (distance g) in
  let g := mkGlobals (duration g) (distance_of (duration g)) in
  (g, actuate (distance g) ++ [Delay 100]).

(** Everything written to the hardware over a sequence of echoes. *)
Fixpoint trace (g : globals) (echoes : list Z) : list event :=
  match echoes with
  | [] => []
  | e :: rest => snd (loop g e) ++ trace (fst (loop g e)) rest
  end.

(** [duration * 0.034]: the float product [loop] halves. *)
Definition scaled (duration : Z) : F32.float :=
  F32.mul (F32.of_Z duration) CM_PER_US.

(** The product [x] is normal and the integer part [q] of its half
    satisfies [1000 q <= 17 d < 1000 (q + 1)]. *)
Definition floor_at (x : F32.float) (d : Z) : bool :=
  match x with
  | S754_finite s m e =>
      Debounced.halvable (S754_finite s m e)
      && (1000 * F32.to_Z (S754_finite s m (e - 1)) <=? 17 * d)
      && (17 * d <? 1000 * (F32.to_Z (S754_finite s m (e - 1)) + 1))
  | _ => false
  end.

(** [floor_at] for the [n] durations from [d] on. *)
Fixpoint floor_from (n : nat) (d : Z) : bool :=
  match n with
  | O => true
  | S k => floor_at (scaled d) d && floor_from k (d + 1)
  end.

(** Last echo for which the range statements below are established. *)
Definition ECHO_BOUND : Z := 30000.

(** [pulseIn (echoPin, HIGH)] names no timeout and gets the library's
    default, one second by the comment on the call. *)
Definition DEFAULT_PULSE_TIMEOUT_US : Z := 1000000.

(** What the first steps of [loop] store in [duration] when the echo pin
    behaves as [echo], with the microseconds spent in [pulseIn]. *)
Definition duration_on (echo : signal) : Z * Z :=
  pulseIn echo DEFAULT_PULSE_TIMEOUT_US.

End Simple.

(** ** The range sampler contract *)

(** A range sampler: the timeout it hands to [pulseIn] ([None] when the
    argument is left out) and the distance it reports for a pulse width. *)
Record sampler : Type := mkSampler {
  timeout_us : option Z;
  sample : Z -> F32.float
}.

Definition debounced_sampler : sampler :=
  mkSampler (Some Debounced.PULSE_TIMEOUT_US) Debounced.measureDistance.

Definition simple_sampler : sampler :=
  mkSampler None (fun duration => F32.of_Z (Simple.distance_of duration)).

(** The sampler contract: a 30 ms timeout, 999 for a missing echo, and
    otherwise the duration times 0.0343, halved. *)
Definition sampler_contract (s : sampler) : Prop :=
  timeout_us s = Some 30000 /\
  sample s 0 = F32.of_Z 999 /\
  forall duration, duration <> 0 ->
    sample s duration =
    F32.div (F32.mul (F32.of_Z duration) (F32.decimal 343 4)) (F32.of_Z 2).

(** The single-threshold policy: deploy below 25 cm, retract from 25 cm on. *)
Definition single_threshold_policy : Prop :=
  forall distance,
    (distance < 25 -> Simple.actuate distance = [ServoWrite Simple.servoPin 90]) /\
    (25 <= distance -> Simple.actuate distance = [ServoWrite Simple.servoPin 0]).

(** ** Observations on a trace of hardware writes *)

(** The last level written to the digital [pin], if any. *)
Fixpoint last_digital_write (pin : Z) (tr : list event) : option bool :=
  match tr with
  | [] => None
  | ev :: rest =>
      match last_digital_write pin rest with
      | Some l => Some l
      | None =>
          match ev with
          | DigitalWrite p l => if p =? pin then Some l else None
          | _ => None
          end
      end
  end.

(** The angles written to the servo on [pin], in order. *)
Fixpoint servo_angles (pin : Z) (tr : list event) : list Z :=
  match tr with
  | [] => []
  | ServoWrite p a :: rest =>
      if p =? pin then a :: servo_angles pin rest else servo_angles pin rest
  | _ :: rest => servo_angles pin rest
  end.

(** Time spent in [delay], in milliseconds. *)
Fixpoint total_delay (tr : list event) : Z :=
  match tr with
  | [] => 0
  | Delay ms :: rest => ms + total_delay rest
  | _ :: rest => total_delay rest
  end.

(** Starting from angle [cur], no write moves the servo by more than one
    degree. *)
Fixpoint smooth_from (cur : Z) (angles : list Z) : bool :=
  match angles with
  | [] => true
  | a :: rest => (Z.abs (a - cur) <=? 1) && smooth_from a rest
  end.

(** The angle a servo at [cur] is left at by the writes [angles]. *)
Fixpoint final_angle (cur : Z) (angles : list Z) : Z :=
  match angles with
  | [] => cur
  | a :: rest => final_angle a rest
  end.

Definition smooth (angles : list Z) : bool :=
  match angles with
  | [] => true
  | a :: rest => smooth_from a rest
  end.

(** Everything written since power-up: [setup], then the iterations. *)
Definition power_up_trace (samples : list F32.float) : list event :=
  Debounced.setup ++ Debounced.trace Debounced.initial samples.

(** * Properties *)

(** ** 16-bit increments *)

Lemma wrap_in_range (x : Z) : Int16.in_range (Int16.wrap x).
Proof.
  unfold Int16.in_range, Int16.wrap, Int16.min_int, Int16.max_int.
  pose proof (Z.mod_pos_bound (x + 32768) 65536 eq_refl). lia.
Qed.

Lemma wrap_small (x : Z) : Int16.in_range x -> Int16.wrap x = x.
Proof.
  unfold Int16.in_range, Int16.wrap, Int16.min_int, Int16.max_int. intros H.
  rewrite Z.mod_small by lia. lia.
Qed.

Lemma wrap_le (x : Z) : Int16.min_int <= x -> Int16.wrap x <= x.
Proof.
  unfold Int16.wrap, Int16.min_int. intros H.
  pose proof (Z.mod_le (x + 32768) 65536 ltac:(lia) eq_refl). lia.
Qed.

Lemma incr_small (x : Z) : 0 <= x < Int16.max_int -> Int16.incr x = x + 1.
Proof.
  intros H. unfold Int16.incr. apply wrap_small.
  unfold Int16.in_range, Int16.min_int, Int16.max_int in *. lia.
Qed.

Lemma incr_bounds (x : Z) :
  Int16.min_int <= x -> Int16.min_int <= Int16.incr x <= x + 1.
Proof.
  intros H. unfold Int16.incr. split.
  - apply wrap_in_range.
  - apply wrap_le. lia.
Qed.

(** ** [pulseIn] gives up when the timeout has run out *)

Lemma pulse_poll_elapsed (echo : signal) (budget : nat) :
  forall t ph, (t <= snd (pulse_poll budget echo t ph) <= t + budget)%nat.
Proof.
  induction budget as [|budget IH]; intros t ph; cbn [pulse_poll].
  - cbn [snd]. lia.
  - destruct ph, (echo t); try (specialize (IH (S t)); cbn [snd]);
      match goal with
      | |- context [pulse_poll budget echo (S t) ?p] => specialize (IH p); lia
      | _ => cbn [snd]; lia
      end.
Qed.

Lemma pulse_poll_width (echo : signal) (budget : nat) :
  forall t ph,
    0 <= match ph with Timing w => w | _ => 0 end ->
    0 <= fst (pulse_poll budget echo t ph)
    <= match ph with Timing w => w | _ => 0 end + Z.of_nat budget.
Proof.
  induction budget as [|budget IH]; intros t ph Hw; cbn [pulse_poll].
  - cbn [fst]. lia.
  - destruct ph as [| |w], (echo t);
      try (cbn [fst]; lia);
      match goal with
      | |- context [pulse_poll budget echo (S t) ?p] =>
          specialize (IH (S t) p); cbn beta iota in IH; lia
      end.
Qed.

Lemma pulse_poll_silent (echo : signal) (budget : nat) :
  (forall t, echo t = false) ->
  forall t ph, ph = Settling \/ ph = Waiting ->
  pulse_poll budget echo t ph = (0, (t + budget)%nat).
Proof.
  intros Hsilent. induction budget as [|budget IH]; intros t ph Hph; cbn [pulse_poll].
  - f_equal. lia.
  - rewrite Hsilent. destruct Hph as [-> | ->]; rewrite (IH (S t) Waiting) by auto;
      f_equal; lia.
Qed.

Lemma pulse_poll_waiting (echo : signal) (k : nat) :
  forall budget t,
    (forall i, (i < k)%nat -> echo (t + i)%nat = false) ->
    pulse_poll (k + budget) echo t Waiting = pulse_poll budget echo (t + k)%nat Waiting.
Proof.
  induction k as [|k IH]; intros budget t Hlow.
  - rewrite Nat.add_0_r. reflexivity.
  - cbn [Nat.add pulse_poll]. rewrite <- (Nat.add_0_r t) at 1.
    rewrite (Hlow O) by lia. rewrite IH.
    + f_equal. lia.
    + intros i Hi. rewrite <- (Hlow (S i)) by lia. f_equal. lia.
Qed.

Lemma pulse_poll_timing (echo : signal) (k : nat) :
  forall budget t w,
    (forall i, (i < k)%nat -> echo (t + i)%nat = true) ->
    pulse_poll (k + budget) echo t (Timing w)
    = pulse_poll budget echo (t + k)%nat (Timing (w + Z.of_nat k)).
Proof.
  induction k as [|k IH]; intros budget t w Hhigh.
  - rewrite Nat.add_0_r, Z.add_0_r. reflexivity.
  - cbn [Nat.add pulse_poll]. rewrite <- (Nat.add_0_r t) at 1.
    rewrite (Hhigh O) by lia. rewrite IH.
    + f_equal; [lia | f_equal; lia].
    + intros i Hi. rewrite <- (Hhigh (S i)) by lia. f_equal. lia.
Qed.

Lemma pulseIn_bounds (echo : signal) (timeout : Z) :
  0 <= timeout ->
  0 <= fst (pulseIn echo timeout) <= timeout /\
  0 <= snd (pulseIn echo timeout) <= timeout.
Proof.
  intros Ht. unfold pulseIn.
  pose proof (pulse_poll_elapsed echo (Z.to_nat timeout) O Settling) as He.
  pose proof (pulse_poll_width echo (Z.to_nat timeout) O Settling ltac:(lia)) as Hw.
  destruct (pulse_poll (Z.to_nat timeout) echo 0 Settling) as [w t].
  cbn [fst snd] in *. lia.
Qed.

Lemma pulseIn_silent (echo : signal) (timeout : Z) :
  0 <= timeout ->
  (forall t, echo t = false) ->
  pulseIn echo timeout = (0, timeout).
Proof.
  intros Ht Hsilent. unfold pulseIn.
  rewrite (pulse_poll_silent echo _ Hsilent O Settling) by auto.
  f_equal. lia.
Qed.

Lemma pulseIn_pulse (start width : nat) (timeout : Z) :
  (0 < start)%nat -> (0 < width)%nat ->
  Z.of_nat (start + width) < timeout ->
  pulseIn (pulse start width) timeout = (Z.of_nat width, Z.of_nat (start + width)).
Proof.
  intros Hs Hw Ht. unfold pulseIn.
  replace (Z.to_nat timeout)
    with (S ((start - 1) + S ((width - 1) + S (Z.to_nat timeout - start - width - 1))))%nat
    by lia.
  cbn [pulse_poll].
  assert (H0 : pulse start width O = false).
  { unfold pulse. destruct (Nat.leb_spec start 0); [lia | reflexivity]. }
  rewrite H0, pulse_poll_waiting.
  2:{ intros i Hi. unfold pulse.
      destruct (Nat.leb_spec start (1 + i)%nat); [lia | reflexivity]. }
  cbn [pulse_poll].
  assert (H1 : pulse start width (1 + (start - 1))%nat = true).
  { unfold pulse. destruct (Nat.leb_spec start (1 + (start - 1))%nat); [|lia].
    destruct (Nat.ltb_spec (1 + (start - 1))%nat (start + width)%nat);
      [reflexivity | lia]. }
  rewrite H1, pulse_poll_timing.
  2:{ intros i Hi. unfold pulse.
      destruct (Nat.leb_spec start (S (1 + (start - 1)) + i)%nat); [|lia].
      destruct (Nat.ltb_spec (S (1 + (start - 1)) + i)%nat (start + width)%nat);
        [reflexivity | lia]. }
  cbn [pulse_poll].
  assert (H2 : pulse start width (S (1 + (start - 1)) + (width - 1))%nat = false).
  { unfold pulse.
    destruct (Nat.ltb_spec (S (1 + (start - 1)) + (width - 1))%nat (start + width)%nat);
      [lia|].
    apply andb_false_r. }
  rewrite H2. f_equal; lia.
Qed.

(** ** Comparison of positive finite floats *)

Lemma finite_lt_not_le (m1 m2 : positive) (e1 e2 : Z) :
  F32.ltb (S754_finite false m1 e1) (S754_finite false m2 e2) = true ->
  F32.leb (S754_finite false m2 e2) (S754_finite false m1 e1) = false.
Proof.
  unfold F32.ltb, F32.leb, SFltb, SFleb, SFcompare.
  rewrite (Z.compare_antisym e1 e2).
  change (Pos.compare_cont Eq m2 m1) with (m2 ?= m1)%positive.
  change (Pos.compare_cont Eq m1 m2) with (m1 ?= m2)%positive.
  rewrite (Pos.compare_antisym m1 m2).
  destruct (e1 ?= e2); cbn [CompOpp]; try discriminate; try reflexivity.
  destruct (m1 ?= m2)%positive; cbn [CompOpp]; try discriminate; reflexivity.
Qed.

Lemma finite_lt_exponent (m1 m2 m3 : positive) (e1 e2 e3 : Z) :
  F32.ltb (S754_finite false m1 e1) (S754_finite false m2 e2) = true ->
  e2 < e3 ->
  F32.ltb (S754_finite false m3 e3) (S754_finite false m1 e1) = false.
Proof.
  unfold F32.ltb, SFltb, SFcompare. intros Hlt He.
  destruct (Z.compare_spec e1 e2) as [-> | H12 | H12]; try discriminate.
  - assert (H : (e3 ?= e2) = Gt) by (apply Z.compare_gt_iff; lia).
    rewrite H. reflexivity.
  - assert (H : (e3 ?= e1) = Gt) by (apply Z.compare_gt_iff; lia).
    rewrite H. reflexivity.
Qed.

Lemma finite_lt_le_trans (m1 m m2 : positive) (e1 e e2 : Z) :
  F32.ltb (S754_finite false m1 e1) (S754_finite false m e) = true ->
  F32.leb (S754_finite false m e) (S754_finite false m2 e2) = true ->
  F32.ltb (S754_finite false m1 e1) (S754_finite false m2 e2) = true.
Proof.
  unfold F32.ltb, F32.leb, SFltb, SFleb, SFcompare.
  change (Pos.compare_cont Eq m1 m) with (m1 ?= m)%positive.
  change (Pos.compare_cont Eq m m2) with (m ?= m2)%positive.
  change (Pos.compare_cont Eq m1 m2) with (m1 ?= m2)%positive.
  destruct (Z.compare_spec e1 e) as [H1 | H1 | H1]; try discriminate;
    destruct (Z.compare_spec e e2) as [H2 | H2 | H2]; try discriminate.
  - rewrite (proj2 (Z.compare_eq_iff e1 e2)) by lia.
    destruct (Pos.compare_spec m1 m) as [Ha | Ha | Ha]; try discriminate.
    destruct (Pos.compare_spec m m2) as [Hb | Hb | Hb]; try discriminate; intros _ _.
    + subst m2. rewrite (proj2 (Pos.compare_lt_iff m1 m) Ha). reflexivity.
    + rewrite (proj2 (Pos.compare_lt_iff m1 m2) (Pos.lt_trans _ _ _ Ha Hb)). reflexivity.
  - rewrite (proj2 (Z.compare_lt_iff e1 e2)) by lia. reflexivity.
  - rewrite (proj2 (Z.compare_lt_iff e1 e2)) by lia. reflexivity.
  - rewrite (proj2 (Z.compare_lt_iff e1 e2)) by lia. reflexivity.
Qed.

Module DebouncedFacts.
Import Debounced.

(** *** One iteration, branch by branch *)

Lemma step_in_band (g : globals) (d : F32.float) :
  in_band d = true ->
  step g d =
  if (DEBOUNCE_COUNT <=? Int16.incr (consecutiveDetections g)) && negb (platformDeployed g)
  then mkGlobals true 0 0 d
  else mkGlobals (platformDeployed g) (Int16.incr (consecutiveDetections g)) 0 d.
Proof.
  intros Hb. unfold step, loop_on. cbn [set_distance distance]. rewrite Hb.
  cbn [set_detections set_no_detections consecutiveDetections platformDeployed
       consecutiveNoDetections distance].
  destruct (_ && _); reflexivity.
Qed.

Lemma step_beyond_max (g : globals) (d : F32.float) :
  in_band d = false -> beyond_max d = true ->
  step g d =
  if (DEBOUNCE_COUNT <=? Int16.incr (consecutiveNoDetections g)) && platformDeployed g
  then mkGlobals false 0 0 d
  else mkGlobals (platformDeployed g) 0 (Int16.incr (consecutiveNoDetections g)) d.
Proof.
  intros Hb Hf. unfold step, loop_on. cbn [set_distance distance]. rewrite Hb, Hf.
  cbn [set_detections set_no_detections consecutiveDetections platformDeployed
       consecutiveNoDetections distance].
  destruct (_ && _); reflexivity.
Qed.

Lemma step_between (g : globals) (d : F32.float) :
  in_band d = false -> beyond_max d = false ->
  step g d = mkGlobals (platformDeployed g) 0 0 d.
Proof.
  intros Hb Hf. unfold step, loop_on. cbn [set_distance distance]. rewrite Hb, Hf.
  reflexivity.
Qed.

(** The three branches, as a case analysis on the sample. *)
Lemma sample_cases (d : F32.float) :
  in_band d = true \/
  (in_band d = false /\ beyond_max d = true) \/
  (in_band d = false /\ beyond_max d = false).
Proof. destruct (in_band d), (beyond_max d); auto. Qed.

Lemma run_snoc (g : globals) (samples : list F32.float) (d : F32.float) :
  run g (samples ++ [d]) = step (run g samples) d.
Proof. unfold run. rewrite fold_left_app. reflexivity. Qed.

(** *** Runs of recent samples *)

Lemma streak_prefix (p : F32.float -> bool) (n : nat) :
  forall newest_first, (n <= streak p newest_first)%nat ->
  exists recent older,
    newest_first = recent ++ older /\ length recent = n /\
    Forall (fun d => p d = true) recent.
Proof.
  induction n as [|n IH]; intros l Hn.
  - exists [], l. repeat split; constructor.
  - destruct l as [|d l]; cbn [streak] in Hn; [lia|].
    destruct (p d) eqn:Hd; [|lia].
    destruct (IH l ltac:(lia)) as (recent & older & -> & Hlen & Hall).
    exists (d :: recent), older. cbn [length app]. repeat split; auto.
Qed.

Lemma streak_ends_with_run (p : F32.float -> bool) (n : nat) (samples : list F32.float) :
  (n <= streak p (rev samples))%nat -> ends_with_run p n samples.
Proof.
  intros Hn. destruct (streak_prefix p n _ Hn) as (recent & older & Hrev & Hlen & Hall).
  exists (rev older), (rev recent). repeat split.
  - rewrite <- rev_app_distr, <- Hrev, rev_involutive. reflexivity.
  - rewrite length_rev. exact Hlen.
  - apply Forall_rev. exact Hall.
Qed.

Lemma streak_snoc (p : F32.float -> bool) (samples : list F32.float) (d : F32.float) :
  streak p (rev (samples ++ [d])) =
  if p d then S (streak p (rev samples)) else O.
Proof. rewrite rev_app_distr. reflexivity. Qed.

(** *** The counters never run ahead of the samples *)

Lemma counts_recent_step (samples : list F32.float) (g : globals) (d : F32.float) :
  counts_recent samples g -> counts_recent (samples ++ [d]) (step g d).
Proof.
  unfold counts_recent. intros [[Hd1 Hd2] [Hn1 Hn2]].
  rewrite !streak_snoc.
  pose proof (incr_bounds _ Hd1) as Hid. pose proof (incr_bounds _ Hn1) as Hin.
  assert (Hmin : Int16.min_int <= 0) by (unfold Int16.min_int; lia).
  destruct (sample_cases d) as [Hb | [[Hb Hf] | [Hb Hf]]].
  - rewrite (step_in_band _ _ Hb), Hb.
    destruct (_ && _); cbn [consecutiveDetections consecutiveNoDetections];
      destruct (beyond_max d); lia.
  - rewrite (step_beyond_max _ _ Hb Hf), Hb, Hf.
    destruct (_ && _); cbn [consecutiveDetections consecutiveNoDetections]; lia.
  - rewrite (step_between _ _ Hb Hf), Hb, Hf.
    cbn [consecutiveDetections consecutiveNoDetections]. lia.
Qed.

Lemma counts_recent_run (samples : list F32.float) :
  counts_recent samples (run initial samples).
Proof.
  induction samples as [|d samples IH] using rev_ind.
  - unfold counts_recent, Int16.min_int. cbn. lia.
  - rewrite run_snoc. apply counts_recent_step. exact IH.
Qed.

(** *** The driving counter stays below the debounce count *)

Lemma driving_counter_step (g : globals) (d : F32.float) :
  driving_counter_bounded g -> driving_counter_bounded (step g d).
Proof.
  unfold driving_counter_bounded, DEBOUNCE_COUNT. intros [Hm Hd].
  destruct (sample_cases d) as [Hb | [[Hb Hf] | [Hb Hf]]].
  - rewrite (step_in_band _ _ Hb). unfold DEBOUNCE_COUNT.
    destruct (platformDeployed g) eqn:Hp; cbn [negb].
    + rewrite andb_false_r. cbn [platformDeployed consecutiveNoDetections]. split; [discriminate | lia].
    + specialize (Hm eq_refl). rewrite incr_small by (unfold Int16.max_int; lia).
      rewrite andb_true_r. destruct (Z.leb_spec 3 (consecutiveDetections g + 1));
        cbn [platformDeployed consecutiveDetections consecutiveNoDetections];
        split; intros; try discriminate; lia.
  - rewrite (step_beyond_max _ _ Hb Hf). unfold DEBOUNCE_COUNT.
    destruct (platformDeployed g) eqn:Hp.
    + specialize (Hd eq_refl). rewrite incr_small by (unfold Int16.max_int; lia).
      rewrite andb_true_r. destruct (Z.leb_spec 3 (consecutiveNoDetections g + 1));
        cbn [platformDeployed consecutiveDetections consecutiveNoDetections];
        split; intros; try discriminate; lia.
    + rewrite andb_false_r. cbn [platformDeployed consecutiveDetections]. split; [lia | discriminate].
  - rewrite (step_between _ _ Hb Hf).
    cbn [platformDeployed consecutiveDetections consecutiveNoDetections].
    split; intros; lia.
Qed.

Lemma driving_counter_initial : driving_counter_bounded initial.
Proof.
  unfold driving_counter_bounded, DEBOUNCE_COUNT. cbn. split; intros; lia.
Qed.

Lemma driving_counter_run (g : globals) (samples : list F32.float) :
  driving_counter_bounded g -> driving_counter_bounded (run g samples).
Proof.
  revert g. induction samples as [|d samples IH]; intros g Hg; cbn.
  - exact Hg.
  - apply IH, driving_counter_step, Hg.
Qed.

(** *** Short runs cannot overflow a counter *)



(** *** Samples closer than MIN_DISTANCE take the final else branch *)

Lemma MIN_DISTANCE_float : F32.of_Z MIN_DISTANCE = S754_finite false 13631488 (-20).
Proof. reflexivity. Qed.

Lemma THRESHOLD_DISTANCE_float : F32.of_Z THRESHOLD_DISTANCE = S754_finite false 10485760 (-19).
Proof. reflexivity. Qed.

Lemma MAX_DISTANCE_float : F32.of_Z MAX_DISTANCE = S754_finite false 13107200 (-19).
Proof. reflexivity. Qed.

Lemma below_min_between (d : F32.float) :
  below_min d = true -> in_band d = false /\ beyond_max d = false.
Proof.
  unfold below_min, in_band, beyond_max.
  rewrite MIN_DISTANCE_float, THRESHOLD_DISTANCE_float, MAX_DISTANCE_float.
  destruct d as [s | s | | s m e].
  - destruct s; split; reflexivity.
  - destruct s; [split; reflexivity | discriminate].
  - discriminate.
  - destruct s; [split; reflexivity|]. intros Hlt. split.
    + rewrite (finite_lt_not_le _ _ _ _ Hlt). reflexivity.
    + apply (finite_lt_exponent _ _ _ _ _ _ Hlt). lia.
Qed.

(** The two bands exclude each other. *)
Lemma beyond_max_not_in_band (d : F32.float) :
  beyond_max d = true -> in_band d = false.
Proof.
  unfold beyond_max, in_band.
  rewrite MIN_DISTANCE_float, THRESHOLD_DISTANCE_float, MAX_DISTANCE_float.
  destruct d as [s | s | | s m e]; try discriminate.
  - destruct s; [discriminate | reflexivity].
  - destruct s; [discriminate|]. intros Hgt.
    destruct (F32.leb (S754_finite false m e) (S754_finite false 10485760 (-19))) eqn:Hle.
    + pose proof (finite_lt_le_trans _ _ _ _ _ _ Hgt Hle) as H. discriminate H.
    + apply andb_false_r.
Qed.

Lemma step_below_min (g : globals) (d : F32.float) :
  below_min d = true ->
  loop_on g d = (mkGlobals (platformDeployed g) 0 0 d, [Delay MEASUREMENT_DELAY]).
Proof.
  intros H. destruct (below_min_between d H) as [Hb Hf].
  unfold loop_on. cbn [set_distance distance]. rewrite Hb, Hf. reflexivity.
Qed.

(** *** Whole-centimetre samples fall in the band their integer value says *)

Lemma whole_cm_agree_spec (n : nat) :
  forall first k,
    whole_cm_agree n first = true ->
    first <= k < first + Z.of_nat n ->
    in_band (cm k) = (MIN_DISTANCE <=? k) && (k <=? THRESHOLD_DISTANCE) /\
    beyond_max (cm k) = (MAX_DISTANCE <? k) /\
    below_min (cm k) = (k <? MIN_DISTANCE).
Proof.
  induction n as [|n IH]; intros first k Hall Hrange.
  - lia.
  - cbn [whole_cm_agree] in Hall.
    apply andb_true_iff in Hall as [Hall Hnext].
    apply andb_true_iff in Hall as [Hall H3].
    apply andb_true_iff in Hall as [H1 H2].
    destruct (Z.eq_dec k first) as [-> | Hne].
    + apply Bool.eqb_prop in H1, H2, H3. auto.
    + apply (IH (first + 1)); [exact Hnext | lia].
Qed.

Lemma whole_cm_bands (k : Z) :
  0 <= k <= 1000 ->
  in_band (cm k) = (MIN_DISTANCE <=? k) && (k <=? THRESHOLD_DISTANCE) /\
  beyond_max (cm k) = (MAX_DISTANCE <? k) /\
  below_min (cm k) = (k <? MIN_DISTANCE).
Proof.
  intros Hk. apply (whole_cm_agree_spec 1001 0); [vm_compute; reflexivity | lia].
Qed.

(** *** Consecutive readings beyond MAX_DISTANCE *)

Lemma far_readings_retract (d : F32.float) (k : nat) (g : globals) :
  in_band d = false -> beyond_max d = true ->
  driving_counter_bounded g ->
  platformDeployed (run g (repeat d k)) = false \/
  Z.of_nat k <= consecutiveNoDetections (run g (repeat d k)) < DEBOUNCE_COUNT.
Proof.
  intros Hb Hf Hg. induction k as [|k IH].
  - cbn [repeat run fold_left]. destruct (platformDeployed g) eqn:Hp; [right|left; reflexivity].
    destruct Hg as [_ Hg]. specialize (Hg Hp). lia.
  - replace (repeat d (S k)) with (repeat d k ++ [d]) by (symmetry; apply (repeat_cons k d)).
    rewrite run_snoc.
    pose proof (driving_counter_run g (repeat d k) Hg) as [_ Hdrive].
    set (g' := run g (repeat d k)) in *.
    rewrite (step_beyond_max _ _ Hb Hf).
    destruct (platformDeployed g') eqn:Hp.
    + specialize (Hdrive eq_refl). destruct IH as [IH | IH]; [discriminate|].
      unfold DEBOUNCE_COUNT in *.
      rewrite incr_small by (unfold Int16.max_int; lia). rewrite andb_true_r.
      destruct (Z.leb_spec 3 (consecutiveNoDetections g' + 1));
        cbn [platformDeployed consecutiveNoDetections]; [left; reflexivity | right; lia].
    + rewrite andb_false_r. cbn [platformDeployed]. left; reflexivity.
Qed.

(** *** Halving a normal float is exact *)

Lemma fexp_normal (x : Z) : -125 <= x -> fexp F32.prec F32.emax x = x - 24.
Proof. unfold fexp, emin, F32.prec, F32.emax. lia. Qed.

Lemma div_eucl_shifted (m : positive) :
  Z.div_eucl (Z.shiftl (Z.pos m) 24) 8388608 = (Z.pos m~0, 0).
Proof.
  rewrite Z.shiftl_mul_pow2 by lia.
  replace (Z.pos m * 2 ^ 24) with (Z.pos m~0 * 8388608) by lia.
  pose proof (Z.div_mul (Z.pos m~0) 8388608 ltac:(lia)) as Hq.
  pose proof (Z.mod_mul (Z.pos m~0) 8388608 ltac:(lia)) as Hr.
  unfold Z.div, Z.modulo in Hq, Hr.
  destruct (Z.div_eucl (Z.pos m~0 * 8388608) 8388608) as [q r].
  subst. reflexivity.
Qed.

Lemma div_two_exact (s : bool) (m : positive) (e : Z) :
  digits2_pos m = 24%positive -> -147 <= e <= 105 ->
  F32.div (S754_finite s m e) TWO = S754_finite s m (e - 1).
Proof.
  intros Hd He.
  unfold F32.div, TWO, SFdiv, SFdiv_core_binary.
  cbn [Zdigits2]. rewrite Hd.
  change (Z.pos (digits2_pos 8388608)) with 24.
  replace (24 + e - (24 + -22)) with (e + 22) by lia.
  rewrite fexp_normal by lia.
  replace (Z.min (e + 22 - 24) (e - -22)) with (e - 2) by lia.
  replace (e - -22 - (e - 2)) with 24 by lia.
  change (IntDef.Z.div_eucl (IntDef.Z.shiftl (Z.pos m) 24) 8388608)
    with (Z.div_eucl (Z.shiftl (Z.pos m) 24) 8388608).
  rewrite div_eucl_shifted.
  change (new_location 8388608 0) with loc_Exact.
  unfold binary_round_aux, shr_fexp. cbn [Zdigits2 digits2_pos shr_record_of_loc].
  rewrite Hd. change (Z.pos (Pos.succ 24)) with 25.
  rewrite fexp_normal by lia.
  replace (25 + (e - 2) - 24 - (e - 2)) with 1 by lia.
  cbn [shr iter_pos shr_1 orb shr_m loc_of_shr_record round_nearest_even Zdigits2].
  rewrite Hd, fexp_normal by lia.
  replace (24 + (e - 2 + 1) - 24 - (e - 2 + 1)) with 0 by lia.
  cbn [shr shr_m].
  replace (e - 2 + 1) with (e - 1) by lia.
  destruct (Z.leb_spec (e - 1) (F32.emax - F32.prec)) as [_ | H];
    [| unfold F32.emax, F32.prec in H; lia].
  destruct s; reflexivity.
Qed.

Lemma div_two_halve (x : F32.float) :
  halvable x = true -> F32.div x TWO = halve x.
Proof.
  destruct x as [s | s | | s m e]; try discriminate. cbn [halvable halve].
  intros H. apply andb_true_iff in H as [H He2]. apply andb_true_iff in H as [Hm He1].
  apply div_two_exact; [apply Pos.eqb_eq; exact Hm | lia].
Qed.

(** *** The integer closeness test is the rational one *)

Lemma near_close (m p : positive) (d : Z) :
  near m p d = true ->
  close_to (S754_finite false m (Z.neg p)) (exact_distance d) = true.
Proof.
  unfold near, close_to. cbn [F32.is_finite andb F32.to_Q].
  rewrite !Z.shiftl_mul_pow2 by lia. intros H. apply Z.leb_le in H.
  apply Qle_bool_iff. unfold exact_distance.
  unfold Qle, Qabs, Qminus, Qplus, Qopp, Qdiv, Qinv, Qmult, inject_Z.
  cbn [Qnum Qden].
  rewrite !Pos2Z.inj_mul, Pos2Z.inj_pow.
  change (Z.pos 10000) with 10000. change (Z.pos 2) with 2. change (Z.pos 1) with 1.
  pose proof (Z.pow_pos_nonneg 2 (Z.pos p) ltac:(lia) ltac:(lia)) as HP.
  set (P := 2 ^ Z.pos p) in *. set (M := Z.pos m) in *.
  replace (M * (1 * 10000 * 2) + - (d * 343 * 1) * P) with (M * 20000 - 343 * d * P) by lia.
  set (A := Z.abs (M * 20000 - 343 * d * P)) in *.
  change (2 ^ 23) with 8388608 in *.
  nia.
Qed.

Lemma half_near_close (x : F32.float) (d : Z) :
  half_near x d = true -> close_to (halve x) (exact_distance d) = true.
Proof.
  unfold half_near. destruct (halve x) as [s | s | | s m e]; try discriminate.
  destruct s; [discriminate|]. destruct e as [|e|p]; try discriminate.
  apply near_close.
Qed.

(** *** The sampler on the durations [pulseIn] can return *)

Lemma accurate_from_spec (n : nat) :
  forall first duration,
    accurate_from n first = true ->
    first <= duration < first + Z.of_nat n ->
    halvable (scaled duration) = true /\
    close_to (halve (scaled duration)) (exact_distance duration) = true.
Proof.
  induction n as [|n IH]; intros first duration Hacc Hrange.
  - lia.
  - cbn [accurate_from] in Hacc. apply andb_true_iff in Hacc as [Hhere Hnext].
    apply andb_true_iff in Hhere as [Hhalvable Hnear].
    destruct (Z.eq_dec duration first) as [-> | Hne].
    + split; [exact Hhalvable | apply half_near_close; exact Hnear].
    + apply (IH (first + 1)); [exact Hnext | lia].
Qed.

Lemma measureDistance_halves (duration : Z) :
  duration <> 0 -> halvable (scaled duration) = true ->
  measureDistance duration = halve (scaled duration).
Proof.
  intros Hne Hh. unfold measureDistance.
  destruct (Z.eqb_spec duration 0); [contradiction|].
  apply (div_two_halve _ Hh).
Qed.

Lemma measureDistance_accurate (duration : Z) :
  0 < duration <= PULSE_TIMEOUT_US ->
  close_to (measureDistance duration) (exact_distance duration) = true.
Proof.
  intros Hrange.
  destruct (accurate_from_spec (Z.to_nat PULSE_TIMEOUT_US) 1 duration) as [Hh Hclose].
  - vm_compute. reflexivity.
  - unfold PULSE_TIMEOUT_US in *. lia.
  - rewrite measureDistance_halves by (assumption || lia). exact Hclose.
Qed.

Lemma NO_ECHO_branch : in_band NO_ECHO = false /\ beyond_max NO_ECHO = true.
Proof. split; reflexivity. Qed.

(** *** The counter that cannot trigger a transition keeps counting *)



(** *** [measureDistance] on an echo signal *)

Lemma measureDistance_on_eq (echo : signal) :
  measureDistance_on echo =
  mkMeasurement
    (measureDistance (fst (pulseIn echo PULSE_TIMEOUT_US)))
    [DigitalWrite TRIG_PIN LOW; DigitalWrite TRIG_PIN HIGH; DigitalWrite TRIG_PIN LOW]
    (12 + snd (pulseIn echo PULSE_TIMEOUT_US)).
Proof.
  unfold measureDistance_on. destruct (pulseIn echo PULSE_TIMEOUT_US) as [duration waited].
  reflexivity.
Qed.

End DebouncedFacts.
Import Debounced DebouncedFacts.

(** ** The claims about the debounced controller *)

(** C1. Hysteresis: from the initial state and for every sample sequence,
    an iteration that turns [platformDeployed] from false to true ends a
    run of at least DEBOUNCE_COUNT consecutive in-band samples, and an
    iteration that turns it from true to false ends a run of at least
    DEBOUNCE_COUNT consecutive samples strictly beyond MAX_DISTANCE. *)
Theorem hysteresis_invariant (samples : list F32.float) (d : F32.float) :
  (platformDeployed (run initial samples) = false ->
   platformDeployed (step (run initial samples) d) = true ->
   ends_with_run in_band (Z.to_nat DEBOUNCE_COUNT) (samples ++ [d])) /\
  (platformDeployed (run initial samples) = true ->
   platformDeployed (step (run initial samples) d) = false ->
   ends_with_run beyond_max (Z.to_nat DEBOUNCE_COUNT) (samples ++ [d])).
Proof.
  pose proof (counts_recent_run samples) as [[Hd1 Hd2] [Hn1 Hn2]].
  pose proof (incr_bounds _ Hd1) as Hid. pose proof (incr_bounds _ Hn1) as Hin.
  set (g := run initial samples) in *.
  split; intros Hbefore Hafter; apply streak_ends_with_run; rewrite streak_snoc;
    destruct (sample_cases d) as [Hb | [[Hb Hf] | [Hb Hf]]].
  - rewrite Hb. rewrite (step_in_band _ _ Hb), Hbefore in Hafter. cbn [negb] in Hafter.
    rewrite andb_true_r in Hafter.
    destruct (Z.leb_spec DEBOUNCE_COUNT (Int16.incr (consecutiveDetections g))) as [Hge|];
      [|cbn in Hafter; discriminate].
    unfold DEBOUNCE_COUNT in *. lia.
  - rewrite (step_beyond_max _ _ Hb Hf), Hbefore, andb_false_r in Hafter.
    cbn in Hafter. discriminate.
  - rewrite (step_between _ _ Hb Hf), Hbefore in Hafter. cbn in Hafter. discriminate.
  - rewrite (step_in_band _ _ Hb), Hbefore in Hafter. cbn [negb] in Hafter.
    rewrite andb_false_r in Hafter. cbn in Hafter. discriminate.
  - rewrite Hf. rewrite (step_beyond_max _ _ Hb Hf), Hbefore, andb_true_r in Hafter.
    destruct (Z.leb_spec DEBOUNCE_COUNT (Int16.incr (consecutiveNoDetections g))) as [Hge|];
      [|cbn in Hafter; discriminate].
    unfold DEBOUNCE_COUNT in *. lia.
  - rewrite (step_between _ _ Hb Hf), Hbefore in Hafter. cbn in Hafter. discriminate.
Qed.

Lemma hysteresis_invariant_witness :
  ends_with_run in_band (Z.to_nat DEBOUNCE_COUNT) (map cm [45; 18; 18] ++ [cm 18]) /\
  ends_with_run beyond_max (Z.to_nat DEBOUNCE_COUNT)
    (map cm [18; 18; 18; 22; 30; 30] ++ [cm 30]).
Proof.
  split.
  - apply (proj1 (hysteresis_invariant (map cm [45; 18; 18]) (cm 18))); reflexivity.
  - apply (proj2 (hysteresis_invariant (map cm [18; 18; 18; 22; 30; 30]) (cm 30)));
      reflexivity.
Defined.




(** C10. Every iteration leaves at least one of the two counters at zero,
    so from the initial state the counters are never both positive. *)
Theorem counters_mutually_exclusive :
  (forall g d,
     consecutiveDetections (step g d) = 0 \/ consecutiveNoDetections (step g d) = 0) /\
  (forall samples,
     consecutiveDetections (run initial samples) = 0 \/
     consecutiveNoDetections (run initial samples) = 0) /\
  (forall samples,
     ~ (0 < consecutiveDetections (run initial samples) /\
        0 < consecutiveNoDetections (run initial samples))).
Proof.
  assert (Hstep : forall g d,
            consecutiveDetections (step g d) = 0 \/ consecutiveNoDetections (step g d) = 0).
  { intros g d. destruct (sample_cases d) as [Hb | [[Hb Hf] | [Hb Hf]]].
    - rewrite (step_in_band _ _ Hb). destruct (_ && _); right; reflexivity.
    - rewrite (step_beyond_max _ _ Hb Hf). destruct (_ && _); left; reflexivity.
    - rewrite (step_between _ _ Hb Hf). left; reflexivity. }
  assert (Hrun : forall samples,
            consecutiveDetections (run initial samples) = 0 \/
            consecutiveNoDetections (run initial samples) = 0).
  { intros samples. destruct samples as [|d samples] using rev_ind.
    - left; reflexivity.
    - rewrite run_snoc. apply Hstep. }
  repeat split; auto.
  intros samples [Hd Hn]. destruct (Hrun samples); lia.
Qed.

(** C5. MIN_DISTANCE = 13, THRESHOLD_DISTANCE = 20, DEBOUNCE_COUNT = 3:
    from the initial state the samples 45, 32, 18, 18, 18 leave the platform
    retracted after each of the first four and deploy it on the fifth, the
    third consecutive 18 cm reading; that iteration sweeps both servos to
    SERVO_EXTENDED. *)
Theorem scenario_deploy :
  (MIN_DISTANCE, THRESHOLD_DISTANCE, DEBOUNCE_COUNT) = (13, 20, 3) /\
  map platformDeployed (history initial (map cm [45; 32; 18; 18; 18]))
  = [false; false; false; false; true] /\
  map consecutiveDetections (history initial (map cm [45; 32; 18; 18; 18]))
  = [0; 0; 1; 2; 0] /\
  trace initial (map cm [45; 32; 18; 18]) = repeat (Delay MEASUREMENT_DELAY) 4 /\
  last_servo_write SERVO1_PIN (trace initial (map cm [45; 32; 18; 18; 18])) = Some SERVO_EXTENDED /\
  last_servo_write SERVO2_PIN (trace initial (map cm [45; 32; 18; 18; 18])) = Some SERVO_EXTENDED.
Proof. repeat split; reflexivity. Qed.

(** C6. MAX_DISTANCE = 25, DEBOUNCE_COUNT = 3: from the deployed state with
    both counters zero the samples 15, 35, 35, 35 keep the platform deployed
    through the first three and retract it on the fourth, the third
    consecutive 35 cm reading; a 15 cm reading sets the no-detection
    counter to zero whatever the state. *)
Theorem scenario_retract :
  (MAX_DISTANCE, DEBOUNCE_COUNT) = (25, 3) /\
  map platformDeployed (history deployed_idle (map cm [15; 35; 35; 35]))
  = [true; true; true; false] /\
  map consecutiveNoDetections (history deployed_idle (map cm [15; 35; 35; 35]))
  = [0; 1; 2; 0] /\
  (forall g, consecutiveNoDetections (step g (cm 15)) = 0) /\
  last_servo_write SERVO1_PIN (trace deployed_idle (map cm [15; 35; 35; 35])) = Some SERVO_RETRACTED /\
  last_servo_write SERVO2_PIN (trace deployed_idle (map cm [15; 35; 35; 35])) = Some SERVO_RETRACTED.
Proof.
  repeat split; try reflexivity.
  intros g. rewrite (step_in_band g (cm 15) eq_refl). destruct (_ && _); reflexivity.
Qed.

(** C8. On a deployed state [deployPlatform] changes nothing in the
    controller state, the platform stays deployed, and any number of
    repetitions gives the state one application gives.  The loop itself
    never repeats the sweep: on a deployed state an in-band sample produces
    no hardware write besides the final delay. *)
Theorem deploy_idempotent (g : globals) :
  platformDeployed g = true ->
  deployed_by g = g /\
  platformDeployed (deployed_by g) = true /\
  (forall n, Nat.iter (S n) deployed_by g = deployed_by g) /\
  (forall d, in_band d = true -> snd (loop_on g d) = [Delay MEASUREMENT_DELAY]).
Proof.
  intros Hp.
  assert (Hfix : deployed_by g = g).
  { destruct g as [p cd cnd dist]. cbn in Hp. subst p. reflexivity. }
  split; [|split; [|split]].
  - exact Hfix.
  - rewrite Hfix. exact Hp.
  - induction n as [|n IH].
    + reflexivity.
    + change (Nat.iter (S (S n)) deployed_by g)
        with (deployed_by (Nat.iter (S n) deployed_by g)).
      rewrite IH, Hfix. exact Hfix.
  - intros d Hb. unfold loop_on, set_distance, set_detections, set_no_detections.
    cbn [distance platformDeployed consecutiveDetections consecutiveNoDetections].
    rewrite Hb, Hp, andb_false_r. reflexivity.
Qed.

Lemma deploy_idempotent_witness :
  deployed_by deployed_idle = deployed_idle /\
  platformDeployed (deployed_by deployed_idle) = true /\
  (forall n, Nat.iter (S n) deployed_by deployed_idle = deployed_by deployed_idle) /\
  (forall d, in_band d = true -> snd (loop_on deployed_idle d) = [Delay MEASUREMENT_DELAY]).
Proof. apply (deploy_idempotent deployed_idle). reflexivity. Defined.

(** C9. A sample strictly below MIN_DISTANCE takes the final else branch:
    both counters become zero, [platformDeployed] keeps its value and
    nothing but the end-of-iteration delay is written.  Hence over a
    sequence of such samples the platform never deploys: every state along
    the way has the deployment flag it started with. *)
Theorem too_close_never_deploys (g : globals) (samples : list F32.float) :
  Forall (fun d => below_min d = true) samples ->
  Forall (fun g' => platformDeployed g' = platformDeployed g /\
                    consecutiveDetections g' = 0 /\
                    consecutiveNoDetections g' = 0) (history g samples) /\
  platformDeployed (run g samples) = platformDeployed g /\
  trace g samples = repeat (Delay MEASUREMENT_DELAY) (length samples).
Proof.
  revert g. induction samples as [|d samples IH]; intros g Hall.
  - repeat split. constructor.
  - inversion Hall as [|? ? Hd Hrest]; subst.
    pose proof (step_below_min g d Hd) as Hloop.
    assert (Hstep : step g d = mkGlobals (platformDeployed g) 0 0 d)
      by (unfold step; rewrite Hloop; reflexivity).
    destruct (IH (step g d) Hrest) as (Hhist & Hrun & Htrace).
    rewrite Hstep in Hhist, Hrun, Htrace. cbn [platformDeployed] in Hhist, Hrun.
    cbn [history run fold_left trace length repeat]. rewrite Hloop, Hstep.
    repeat split.
    + constructor; [repeat split | exact Hhist].
    + exact Hrun.
    + cbn [snd app]. rewrite Htrace. reflexivity.
Qed.

Lemma too_close_never_deploys_witness :
  platformDeployed (run initial (map cm [5; 1; 12])) = platformDeployed initial.
Proof.
  apply (too_close_never_deploys initial (map cm [5; 1; 12])).
  repeat constructor.
Defined.

(** C2. A reading without an echo is never a detection.  Debounced
    controller: [measureDistance] turns the zero duration into 999, which is
    beyond MAX_DISTANCE and outside the band; the iteration zeroes the
    detection counter, advances the no-detection counter (or retracts), never
    deploys, and DEBOUNCE_COUNT or more such readings in a row leave the
    platform retracted whatever was fed before.  Single-threshold sketch: the
    zero duration gives distance 0 and the servo is sent to 0 degrees. *)
Theorem timeout_is_no_train :
  (measureDistance 0 = cm 999 /\ in_band (cm 999) = false /\ beyond_max (cm 999) = true) /\
  (forall g,
     fst (loop g 0) =
     if (DEBOUNCE_COUNT <=? Int16.incr (consecutiveNoDetections g)) && platformDeployed g
     then mkGlobals false 0 0 (cm 999)
     else mkGlobals (platformDeployed g) 0 (Int16.incr (consecutiveNoDetections g)) (cm 999)) /\
  (forall g,
     platformDeployed g = false ->
     platformDeployed (fst (loop g 0)) = false /\
     snd (loop g 0) = [Delay MEASUREMENT_DELAY]) /\
  (forall g,
     platformDeployed (fst (loop g 0)) = true -> platformDeployed g = true) /\
  (forall samples n,
     (Z.to_nat DEBOUNCE_COUNT <= n)%nat ->
     platformDeployed (run (run initial samples) (repeat (measureDistance 0) n)) = false) /\
  (forall g,
     Simple.loop g 0 = (Simple.mkGlobals 0 0, [ServoWrite Simple.servoPin 0; Delay 100])).
Proof.
  assert (Hstep : forall g,
            fst (loop g 0) =
            if (DEBOUNCE_COUNT <=? Int16.incr (consecutiveNoDetections g)) && platformDeployed g
            then mkGlobals false 0 0 (cm 999)
            else mkGlobals (platformDeployed g) 0 (Int16.incr (consecutiveNoDetections g)) (cm 999)).
  { intros g. exact (step_beyond_max g (cm 999) eq_refl eq_refl). }
  split; [repeat split | split; [exact Hstep | split; [|split; [|split]]]].
  - intros g Hp. split.
    + rewrite Hstep, Hp, andb_false_r. reflexivity.
    + unfold loop, loop_on, set_distance, set_detections, set_no_detections.
      cbn [distance platformDeployed consecutiveDetections consecutiveNoDetections].
      change (measureDistance 0) with NO_ECHO.
      rewrite (proj1 NO_ECHO_branch), (proj2 NO_ECHO_branch), Hp, andb_false_r.
      reflexivity.
  - intros g. rewrite Hstep. destruct (platformDeployed g); [reflexivity|].
    rewrite andb_false_r. cbn [platformDeployed]. discriminate.
  - intros samples n Hn. change (measureDistance 0) with NO_ECHO.
    destruct (far_readings_retract NO_ECHO n (run initial samples)
                (proj1 NO_ECHO_branch) (proj2 NO_ECHO_branch)
                (driving_counter_run _ _ driving_counter_initial)) as [H | H].
    + exact H.
    + unfold DEBOUNCE_COUNT in *. lia.
  - intros g. reflexivity.
Qed.

Lemma timeout_is_no_train_witness :
  platformDeployed (run (run initial (map cm [18; 18; 18])) (repeat (measureDistance 0) 3)) = false.
Proof.
  apply (proj1 (proj2 (proj2 (proj2 (proj2 timeout_is_no_train)))) (map cm [18; 18; 18]) 3%nat).
  vm_compute. lia.
Defined.

(** ** The claims about the single-threshold sketch *)

(** C7, as stated: every distance below 25 deploys.  The stored distance 0
    (no echo, or an object closer than 1 cm: 58 microseconds of echo) is below
    25 and sends the servo to 0 degrees. *)
Lemma single_threshold_counterexample :
  Simple.distance_of 58 = 0 /\
  0 < 25 /\
  Simple.actuate 0 = [ServoWrite Simple.servoPin 0] /\
  ~ single_threshold_policy.
Proof.
  repeat split.
  intros H. destruct (H 0) as [Hdeploy _].
  specialize (Hdeploy eq_refl). discriminate Hdeploy.
Qed.

(** C7, amended.  A distance strictly between 0 and 25 sends the servo to 90
    degrees in the same iteration; a distance of 0 or less, or of 25 or more,
    sends it to 0 degrees.  What is written depends on the current echo only
    (no debounce): 10 cm deploys at once and 30 cm on the next iteration
    retracts at once. *)
Theorem single_threshold_variant (distance : Z) :
  (0 < distance < 25 -> Simple.actuate distance = [ServoWrite Simple.servoPin 90]) /\
  (distance <= 0 \/ 25 <= distance -> Simple.actuate distance = [ServoWrite Simple.servoPin 0]) /\
  (forall g g' echo, snd (Simple.loop g echo) = snd (Simple.loop g' echo)) /\
  (forall g echo,
     snd (Simple.loop g echo) = Simple.actuate (Simple.distance_of echo) ++ [Delay 100]) /\
  map Simple.distance_of [600; 1800] = [10; 30] /\
  Simple.trace Simple.initial [600; 1800] =
  [ServoWrite Simple.servoPin 90; Delay 100; ServoWrite Simple.servoPin 0; Delay 100].
Proof.
  unfold Simple.actuate. split; [|split; [|repeat split]].
  - intros [H0 H25].
    destruct (Z.ltb_spec 0 distance); [|lia].
    destruct (Z.ltb_spec distance 25); [|lia]. reflexivity.
  - intros [H | H].
    + destruct (Z.ltb_spec 0 distance); [lia|]. reflexivity.
    + destruct (Z.ltb_spec distance 25); [lia|]. rewrite andb_false_r. reflexivity.
Qed.

Lemma single_threshold_variant_witness :
  Simple.actuate 10 = [ServoWrite Simple.servoPin 90] /\
  Simple.actuate 30 = [ServoWrite Simple.servoPin 0].
Proof.
  split.
  - apply (proj1 (single_threshold_variant 10)). lia.
  - apply (proj1 (proj2 (single_threshold_variant 30))). right. lia.
Defined.

(** ** The range sampler *)

(** C4, as stated: both samplers meet the sampler contract.  The
    single-threshold sketch leaves the timeout argument of [pulseIn] out and
    reports distance 0, not 999, when there is no echo. *)
Lemma sampler_contract_counterexample :
  timeout_us simple_sampler = None /\
  sample simple_sampler 0 = F32.of_Z 0 /\
  sample simple_sampler 0 <> F32.of_Z 999 /\
  ~ sampler_contract simple_sampler.
Proof.
  repeat split.
  - discriminate.
  - intros (_ & H & _). discriminate H.
Qed.

(** C4, amended.  [measureDistance] of the debounced controller applies a
    timeout of 30000 microseconds (30 ms) to the echo measurement, so that a
    missing echo does not block it: whatever the echo pin does, the call
    spends 12 microseconds on the trigger pulse and at most 30000 in
    [pulseIn].  For a zero duration (no complete echo within the timeout) it
    returns 999, and otherwise the float product of the duration and 0.0343,
    halved, which for every duration [pulseIn] can return is finite and
    within one part in 2^23 of the exact duration x 0.0343 / 2; an echo
    pulse that ends within the timeout is reported with its own width.  The
    single-threshold sketch does not meet this contract: it passes no
    timeout and waits a full second for a missing echo, multiplies by 0.034,
    drops the fraction, and reports 0 for a zero duration. *)
Theorem range_sampler_postcondition :
  sampler_contract debounced_sampler /\
  (forall duration,
     0 < duration <= PULSE_TIMEOUT_US ->
     close_to (measureDistance duration) (exact_distance duration) = true) /\
  timeout_us simple_sampler = None /\
  Simple.distance_of 0 = 0 /\
  (forall duration,
     Simple.distance_of duration =
     F32.to_Z (F32.div (F32.mul (F32.of_Z duration) (F32.decimal 34 3)) (F32.of_Z 2))) /\
  F32.decimal 34 3 <> F32.decimal 343 4 /\
  (PULSE_TIMEOUT_US = 30 * 1000 /\
   forall echo, 12 <= micros (measureDistance_on echo) <= 12 + PULSE_TIMEOUT_US) /\
  (forall echo,
     (forall t, echo t = false) ->
     returned (measureDistance_on echo) = cm 999 /\
     micros (measureDistance_on echo) = 12 + PULSE_TIMEOUT_US) /\
  (forall echo,
     (fst (pulseIn echo PULSE_TIMEOUT_US) = 0 /\
      returned (measureDistance_on echo) = cm 999) \/
     (0 < fst (pulseIn echo PULSE_TIMEOUT_US) <= PULSE_TIMEOUT_US /\
      returned (measureDistance_on echo)
      = F32.div (F32.mul (F32.of_Z (fst (pulseIn echo PULSE_TIMEOUT_US)))
                         (F32.decimal 343 4)) (F32.of_Z 2) /\
      close_to (returned (measureDistance_on echo))
               (exact_distance (fst (pulseIn echo PULSE_TIMEOUT_US))) = true)) /\
  (forall start width : nat,
     (0 < start)%nat -> (0 < width)%nat ->
     Z.of_nat (start + width) < PULSE_TIMEOUT_US ->
     returned (measureDistance_on (pulse start width)) = measureDistance (Z.of_nat width) /\
     close_to (returned (measureDistance_on (pulse start width)))
              (exact_distance (Z.of_nat width)) = true /\
     micros (measureDistance_on (pulse start width)) = 12 + Z.of_nat (start + width)) /\
  (forall echo,
     (forall t, echo t = false) ->
     Simple.duration_on echo = (0, 1000000) /\
     Simple.distance_of (fst (Simple.duration_on echo)) = 0).
Proof.
  assert (Htimeout : 0 <= PULSE_TIMEOUT_US) by (unfold PULSE_TIMEOUT_US; lia).
  split.
  { unfold sampler_contract, debounced_sampler. cbn [timeout_us sample].
    split; [reflexivity | split; [reflexivity|]].
    intros duration Hne. unfold measureDistance.
    destruct (Z.eqb_spec duration 0); [contradiction | reflexivity]. }
  split.
  { exact measureDistance_accurate. }
  split; [reflexivity|]. split; [reflexivity|]. split; [reflexivity|].
  split.
  { vm_compute. discriminate. }
  split.
  { split; [reflexivity|]. intros echo. rewrite measureDistance_on_eq. cbn [micros].
    destruct (pulseIn_bounds echo PULSE_TIMEOUT_US Htimeout) as [_ Hwait]. lia. }
  split.
  { intros echo Hsilent. rewrite measureDistance_on_eq. cbn [returned micros].
    rewrite (pulseIn_silent echo PULSE_TIMEOUT_US Htimeout Hsilent). cbn [fst snd].
    split; reflexivity. }
  split.
  { intros echo. rewrite measureDistance_on_eq. cbn [returned].
    destruct (pulseIn_bounds echo PULSE_TIMEOUT_US Htimeout) as [Hdur _].
    destruct (Z.eq_dec (fst (pulseIn echo PULSE_TIMEOUT_US)) 0) as [H0 | Hne].
    - left. rewrite H0. split; reflexivity.
    - right. split; [lia|]. split.
      + unfold measureDistance.
        destruct (Z.eqb_spec (fst (pulseIn echo PULSE_TIMEOUT_US)) 0);
          [contradiction | reflexivity].
      + apply measureDistance_accurate. lia. }
  split.
  { intros start width Hs Hw Hend. rewrite measureDistance_on_eq. cbn [returned micros].
    rewrite (pulseIn_pulse start width PULSE_TIMEOUT_US Hs Hw Hend). cbn [fst snd].
    split; [reflexivity | split; [|reflexivity]].
    apply measureDistance_accurate. lia. }
  intros echo Hsilent. unfold Simple.duration_on.
  rewrite (pulseIn_silent echo Simple.DEFAULT_PULSE_TIMEOUT_US
             ltac:(unfold Simple.DEFAULT_PULSE_TIMEOUT_US; lia) Hsilent).
  split; reflexivity.
Qed.

Lemma range_sampler_postcondition_witness :
  close_to (measureDistance 1000) (exact_distance 1000) = true /\
  returned (measureDistance_on silent) = cm 999 /\
  micros (measureDistance_on silent) = 12 + PULSE_TIMEOUT_US /\
  micros (measureDistance_on (pulse 100 1000)) = 12 + Z.of_nat (100 + 1000).
Proof.
  pose proof range_sampler_postcondition
    as (_ & Hacc & _ & _ & _ & _ & _ & Hsilent & _ & Hpulse & _).
  split; [|split; [|split]].
  - apply (Hacc 1000). unfold PULSE_TIMEOUT_US. lia.
  - apply (Hsilent silent). reflexivity.
  - apply (Hsilent silent). reflexivity.
  - apply (Hpulse 100%nat 1000%nat); [lia | lia | unfold PULSE_TIMEOUT_US; lia].
Defined.

(** * Further properties of the two sketches *)

(** ** The shape of an iteration and of a whole run *)

Lemma loop_on_cases (g : globals) (d : F32.float) :
  (platformDeployed (step g d) = platformDeployed g /\
   snd (loop_on g d) = [Delay MEASUREMENT_DELAY]) \/
  (platformDeployed g = false /\ platformDeployed (step g d) = true /\
   snd (loop_on g d) = deploy_events ++ [Delay MEASUREMENT_DELAY]) \/
  (platformDeployed g = true /\ platformDeployed (step g d) = false /\
   snd (loop_on g d) = retract_events ++ [Delay MEASUREMENT_DELAY]).
Proof.
  unfold step, loop_on, set_distance, set_detections, set_no_detections.
  cbn [distance platformDeployed consecutiveDetections consecutiveNoDetections].
  destruct (in_band d); [|destruct (beyond_max d)].
  - destruct (DEBOUNCE_COUNT <=? _); cbn [andb]; [|left; split; reflexivity].
    destruct (platformDeployed g); cbn [negb]; [left; split; reflexivity|].
    right; left. repeat split.
  - destruct (DEBOUNCE_COUNT <=? _); cbn [andb]; [|left; split; reflexivity].
    destruct (platformDeployed g); [|left; split; reflexivity].
    right; right. repeat split.
  - left; split; reflexivity.
Qed.

Lemma trace_snoc (g : globals) (samples : list F32.float) (d : F32.float) :
  trace g (samples ++ [d]) = trace g samples ++ snd (loop_on (run g samples) d).
Proof.
  revert g. induction samples as [|x samples IH]; intros g; cbn [app trace run fold_left].
  - rewrite app_nil_r. reflexivity.
  - rewrite IH, app_assoc. reflexivity.
Qed.

(** Whatever holds of [setup] and is kept by an idle iteration, by a deploy
    iteration on a retracted platform and by a retract iteration on a
    deployed one, holds of every run. *)
Lemma power_up_trace_ind (P : bool -> list event -> Prop) :
  P false setup ->
  (forall b tr, P b tr -> P b (tr ++ [Delay MEASUREMENT_DELAY])) ->
  (forall tr, P false tr -> P true (tr ++ deploy_events ++ [Delay MEASUREMENT_DELAY])) ->
  (forall tr, P true tr -> P false (tr ++ retract_events ++ [Delay MEASUREMENT_DELAY])) ->
  forall samples, P (platformDeployed (run initial samples)) (power_up_trace samples).
Proof.
  intros Hsetup Hidle Hdeploy Hretract samples. unfold power_up_trace.
  induction samples as [|d samples IH] using rev_ind.
  - cbn [trace run fold_left]. rewrite app_nil_r. exact Hsetup.
  - rewrite trace_snoc, run_snoc, app_assoc.
    destruct (loop_on_cases (run initial samples) d)
      as [[Hsame Hout] | [(Hb & Ha & Hout) | (Hb & Ha & Hout)]];
      rewrite Hout.
    + rewrite Hsame. apply Hidle, IH.
    + rewrite Ha. rewrite Hb in IH. apply Hdeploy, IH.
    + rewrite Ha. rewrite Hb in IH. apply Hretract, IH.
Qed.

(** ** Observations distribute over concatenation *)

Lemma last_servo_write_app (pin : Z) (a b : list event) :
  last_servo_write pin (a ++ b) =
  match last_servo_write pin b with
  | Some x => Some x
  | None => last_servo_write pin a
  end.
Proof.
  induction a as [|ev a IH]; cbn [app last_servo_write].
  - destruct (last_servo_write pin b); reflexivity.
  - rewrite IH. destruct (last_servo_write pin b); reflexivity.
Qed.

Lemma last_digital_write_app (pin : Z) (a b : list event) :
  last_digital_write pin (a ++ b) =
  match last_digital_write pin b with
  | Some x => Some x
  | None => last_digital_write pin a
  end.
Proof.
  induction a as [|ev a IH]; cbn [app last_digital_write].
  - destruct (last_digital_write pin b); reflexivity.
  - rewrite IH. destruct (last_digital_write pin b); reflexivity.
Qed.

Lemma servo_angles_app (pin : Z) (a b : list event) :
  servo_angles pin (a ++ b) = servo_angles pin a ++ servo_angles pin b.
Proof.
  induction a as [|ev a IH]; cbn [app servo_angles]; [reflexivity|].
  destruct ev as [p x | p l | ms]; [|exact IH|exact IH].
  destruct (p =? pin); cbn [app]; rewrite IH; reflexivity.
Qed.

Lemma total_delay_app (a b : list event) :
  total_delay (a ++ b) = total_delay a + total_delay b.
Proof.
  induction a as [|ev a IH]; cbn [app total_delay]; [reflexivity|].
  destruct ev; lia.
Qed.

Lemma smooth_from_app (cur : Z) (a b : list Z) :
  smooth_from cur (a ++ b) = smooth_from cur a && smooth_from (final_angle cur a) b.
Proof.
  revert cur. induction a as [|x a IH]; intros cur; cbn [app smooth_from final_angle].
  - reflexivity.
  - rewrite IH, andb_assoc. reflexivity.
Qed.

Lemma final_angle_app (cur : Z) (a b : list Z) :
  final_angle cur (a ++ b) = final_angle (final_angle cur a) b.
Proof.
  revert cur. induction a as [|x a IH]; intros cur; cbn [app final_angle]; auto.
Qed.

(** ** What the two sweeps write *)

Lemma deploy_angles (pin : Z) :
  pin = SERVO1_PIN \/ pin = SERVO2_PIN ->
  servo_angles pin deploy_events = map Z.of_nat (seq 0 91).
Proof. intros [-> | ->]; reflexivity. Qed.

Lemma retract_angles (pin : Z) :
  pin = SERVO1_PIN \/ pin = SERVO2_PIN ->
  servo_angles pin retract_events = map (fun k => 90 - Z.of_nat k) (seq 0 91).
Proof. intros [-> | ->]; reflexivity. Qed.

Lemma deploy_angles_in_range :
  Forall (fun a => SERVO_RETRACTED <= a <= SERVO_EXTENDED) (map Z.of_nat (seq 0 91)).
Proof.
  apply Forall_forall. intros a Ha. apply in_map_iff in Ha as (k & <- & Hk).
  apply in_seq in Hk. unfold SERVO_RETRACTED, SERVO_EXTENDED. lia.
Qed.

Lemma retract_angles_in_range :
  Forall (fun a => SERVO_RETRACTED <= a <= SERVO_EXTENDED)
         (map (fun k => 90 - Z.of_nat k) (seq 0 91)).
Proof.
  apply Forall_forall. intros a Ha. apply in_map_iff in Ha as (k & <- & Hk).
  apply in_seq in Hk. unfold SERVO_RETRACTED, SERVO_EXTENDED. lia.
Qed.

Lemma servo_angles_range_lockstep (samples : list F32.float) :
  Forall (fun a => SERVO_RETRACTED <= a <= SERVO_EXTENDED)
         (servo_angles SERVO1_PIN (power_up_trace samples)) /\
  servo_angles SERVO2_PIN (power_up_trace samples) =
  servo_angles SERVO1_PIN (power_up_trace samples).
Proof.
  apply (power_up_trace_ind
           (fun _ tr =>
              Forall (fun a => SERVO_RETRACTED <= a <= SERVO_EXTENDED)
                     (servo_angles SERVO1_PIN tr) /\
              servo_angles SERVO2_PIN tr = servo_angles SERVO1_PIN tr)).
  - split; [|reflexivity]. repeat constructor; discriminate.
  - intros _ tr [Hrange Hsame]. rewrite !servo_angles_app, Hsame. cbn [servo_angles].
    rewrite app_nil_r. split; [exact Hrange | reflexivity].
  - intros tr [Hrange Hsame]. rewrite !servo_angles_app, Hsame.
    rewrite !deploy_angles by auto. cbn [servo_angles]. rewrite app_nil_r.
    split; [|reflexivity]. apply Forall_app. split; [exact Hrange|].
    apply deploy_angles_in_range.
  - intros tr [Hrange Hsame]. rewrite !servo_angles_app, Hsame.
    rewrite !retract_angles by auto. cbn [servo_angles]. rewrite app_nil_r.
    split; [|reflexivity]. apply Forall_app. split; [exact Hrange|].
    apply retract_angles_in_range.
Qed.

(** X1. Since power-up and whatever the samples, every angle written to a
    servo lies between SERVO_RETRACTED and SERVO_EXTENDED, and the two
    servos are sent the same sequence of angles. *)
Theorem servo_writes_in_range_and_lockstep (samples : list F32.float) :
  Forall (fun a => SERVO_RETRACTED <= a <= SERVO_EXTENDED)
         (servo_angles SERVO1_PIN (power_up_trace samples)) /\
  Forall (fun a => SERVO_RETRACTED <= a <= SERVO_EXTENDED)
         (servo_angles SERVO2_PIN (power_up_trace samples)) /\
  servo_angles SERVO2_PIN (power_up_trace samples) =
  servo_angles SERVO1_PIN (power_up_trace samples).
Proof.
  destruct (servo_angles_range_lockstep samples) as [Hrange Hsame].
  rewrite Hsame. auto.
Qed.

(** X2. Since power-up no write moves a servo by more than one degree: a
    deploy sweep starts at the angle the servo was left at (0), a retract
    sweep at 90, and each step of a sweep is one degree.  After the last
    write the servo stands at 90 when [platformDeployed] is set and at 0
    otherwise. *)
Theorem servo_motion_smooth (samples : list F32.float) :
  smooth (servo_angles SERVO1_PIN (power_up_trace samples)) = true /\
  smooth (servo_angles SERVO2_PIN (power_up_trace samples)) = true /\
  last_servo_write SERVO1_PIN (power_up_trace samples)
  = Some (if platformDeployed (run initial samples) then SERVO_EXTENDED else SERVO_RETRACTED) /\
  last_servo_write SERVO2_PIN (power_up_trace samples)
  = Some (if platformDeployed (run initial samples) then SERVO_EXTENDED else SERVO_RETRACTED).
Proof.
  assert (H : exists rest,
             servo_angles SERVO1_PIN (power_up_trace samples) = 0 :: rest /\
             smooth_from 0 rest = true /\
             last_servo_write SERVO1_PIN (power_up_trace samples)
             = Some (if platformDeployed (run initial samples) then 90 else 0) /\
             last_servo_write SERVO2_PIN (power_up_trace samples)
             = Some (if platformDeployed (run initial samples) then 90 else 0) /\
             final_angle 0 rest = if platformDeployed (run initial samples) then 90 else 0).
  { apply (power_up_trace_ind
             (fun b tr =>
                exists rest,
                  servo_angles SERVO1_PIN tr = 0 :: rest /\
                  smooth_from 0 rest = true /\
                  last_servo_write SERVO1_PIN tr = Some (if b then 90 else 0) /\
                  last_servo_write SERVO2_PIN tr = Some (if b then 90 else 0) /\
                  final_angle 0 rest = if b then 90 else 0)).
    - exists []. repeat split.
    - intros b tr (rest & Ha & Hs & Hl1 & Hl2 & Hf). exists rest.
      rewrite servo_angles_app, !last_servo_write_app, Ha. cbn [servo_angles last_servo_write].
      rewrite app_nil_r. auto.
    - intros tr (rest & Ha & Hs & Hl1 & Hl2 & Hf).
      exists (rest ++ map Z.of_nat (seq 0 91)).
      rewrite !servo_angles_app, !last_servo_write_app, Ha, deploy_angles by auto.
      rewrite smooth_from_app, final_angle_app, Hs, Hf.
      cbn [servo_angles]. rewrite app_nil_r. repeat split.
    - intros tr (rest & Ha & Hs & Hl1 & Hl2 & Hf).
      exists (rest ++ map (fun k => 90 - Z.of_nat k) (seq 0 91)).
      rewrite !servo_angles_app, !last_servo_write_app, Ha, retract_angles by auto.
      rewrite smooth_from_app, final_angle_app, Hs, Hf.
      cbn [servo_angles]. rewrite app_nil_r. repeat split. }
  destruct H as (rest & Ha & Hs & Hl1 & Hl2 & _).
  destruct (servo_angles_range_lockstep samples) as [_ Hsame].
  rewrite Hsame, Ha. cbn [smooth]. auto.
Qed.

(** ** Indicator outputs *)

Lemma indicator_state (samples : list F32.float) :
  last_digital_write LED_GREEN (power_up_trace samples)
  = Some (negb (platformDeployed (run initial samples))) /\
  last_digital_write LED_RED (power_up_trace samples)
  = Some (platformDeployed (run initial samples)) /\
  last_digital_write BUZZER_PIN (power_up_trace samples) = Some LOW.
Proof.
  apply (power_up_trace_ind
           (fun b tr =>
              last_digital_write LED_GREEN tr = Some (negb b) /\
              last_digital_write LED_RED tr = Some b /\
              last_digital_write BUZZER_PIN tr = Some LOW)).
  - repeat split.
  - intros b tr (Hg & Hr & Hb). rewrite !last_digital_write_app.
    cbn [last_digital_write]. auto.
  - intros tr _. rewrite !last_digital_write_app. repeat split.
  - intros tr _. rewrite !last_digital_write_app. repeat split.
Qed.

(** X3. After [setup] and any number of iterations the indicator pins agree
    with [platformDeployed]: the red LED is on exactly when the platform is
    deployed, the green LED exactly when it is not, and the buzzer is off. *)
Theorem indicators_follow_state (samples : list F32.float) :
  last_digital_write LED_RED (power_up_trace samples)
  = Some (platformDeployed (run initial samples)) /\
  last_digital_write LED_GREEN (power_up_trace samples)
  = Some (negb (platformDeployed (run initial samples))) /\
  last_digital_write BUZZER_PIN (power_up_trace samples) = Some LOW.
Proof.
  destruct (indicator_state samples) as (Hg & Hr & Hb). auto.
Qed.

(** X4. [updateLEDs] is never called, and calling it after any iteration
    would change nothing: every pin it writes already has the level it
    writes. *)
Theorem updateLEDs_changes_nothing (samples : list F32.float) (pin : Z) :
  last_digital_write pin (power_up_trace samples ++ updateLEDs (run initial samples))
  = last_digital_write pin (power_up_trace samples).
Proof.
  destruct (indicator_state samples) as (Hg & Hr & _).
  rewrite last_digital_write_app. unfold updateLEDs.
  destruct (platformDeployed (run initial samples)); cbn [last_digital_write negb] in *;
    destruct (Z.eqb_spec LED_RED pin) as [<- | _];
    try (rewrite Hr; reflexivity);
    destruct (Z.eqb_spec LED_GREEN pin) as [<- | _];
    try (rewrite Hg; reflexivity);
    destruct (last_digital_write pin (power_up_trace samples)); reflexivity.
Qed.

(** ** How long an iteration spends in [delay] *)

(** X5. From the point where [measureDistance] has returned, an iteration
    that leaves [platformDeployed] unchanged does nothing but call [delay]
    for MEASUREMENT_DELAY (100 ms): it writes no pin.  The calls of [delay]
    of an iteration that deploys add up to 1915 ms and those of one that
    retracts to 1715 ms, so the time an iteration spends in [delay] is
    never below 100 ms and never above 1915 ms.  (The trigger pulse and the
    wait in [pulseIn], which precede this, are not counted.) *)
Theorem iteration_delay_time (g : globals) (d : F32.float) :
  total_delay (snd (loop_on g d)) =
  (if Bool.eqb (platformDeployed (step g d)) (platformDeployed g) then MEASUREMENT_DELAY
   else if platformDeployed (step g d) then 1915 else 1715) /\
  (platformDeployed (step g d) = platformDeployed g ->
   snd (loop_on g d) = [Delay MEASUREMENT_DELAY]) /\
  MEASUREMENT_DELAY <= total_delay (snd (loop_on g d)) <= 1915.
Proof.
  destruct (loop_on_cases g d)
    as [[Hsame Hout] | [(Hb & Ha & Hout) | (Hb & Ha & Hout)]];
    rewrite Hout.
  - rewrite Hsame, Bool.eqb_reflx. repeat split; cbn; discriminate.
  - rewrite Ha, Hb. repeat split; try discriminate.
  - rewrite Ha, Hb. repeat split; try discriminate.
Qed.

Lemma iteration_delay_time_witness :
  snd (loop_on initial (cm 40)) = [Delay MEASUREMENT_DELAY].
Proof.
  apply (proj1 (proj2 (iteration_delay_time initial (cm 40)))). reflexivity.
Defined.

(** ** Bursts of consistent samples *)

Lemma run_app (g : globals) (a b : list F32.float) :
  run g (a ++ b) = run (run g a) b.
Proof. unfold run. apply fold_left_app. Qed.

Lemma in_band_burst (g : globals) (burst : list F32.float) :
  driving_counter_bounded g ->
  Forall (fun d => in_band d = true) burst ->
  platformDeployed (run g burst) = true \/
  Z.of_nat (length burst) <= consecutiveDetections (run g burst) < DEBOUNCE_COUNT.
Proof.
  intros Hg. induction burst as [|d burst IH] using rev_ind; intros Hall.
  - cbn [run fold_left length]. destruct (platformDeployed g) eqn:Hp; [left; reflexivity|].
    right. destruct Hg as [Hg _]. specialize (Hg Hp). lia.
  - apply Forall_app in Hall as [Hall Hd]. inversion Hd as [|? ? Hb _]; subst.
    specialize (IH Hall). rewrite run_snoc, length_app. cbn [length].
    pose proof (driving_counter_run g burst Hg) as [Hdrive _].
    set (g' := run g burst) in *. rewrite (step_in_band _ _ Hb).
    destruct (platformDeployed g') eqn:Hp; cbn [negb].
    + rewrite andb_false_r. left; reflexivity.
    + specialize (Hdrive eq_refl). destruct IH as [IH | IH]; [discriminate|].
      unfold DEBOUNCE_COUNT in *.
      rewrite incr_small by (unfold Int16.max_int; lia). rewrite andb_true_r.
      destruct (Z.leb_spec 3 (consecutiveDetections g' + 1));
        cbn [platformDeployed consecutiveDetections]; [left; reflexivity | right; lia].
Qed.

Lemma beyond_max_burst (g : globals) (burst : list F32.float) :
  driving_counter_bounded g ->
  Forall (fun d => beyond_max d = true) burst ->
  platformDeployed (run g burst) = false \/
  Z.of_nat (length burst) <= consecutiveNoDetections (run g burst) < DEBOUNCE_COUNT.
Proof.
  intros Hg. induction burst as [|d burst IH] using rev_ind; intros Hall.
  - cbn [run fold_left length]. destruct (platformDeployed g) eqn:Hp; [|left; reflexivity].
    right. destruct Hg as [_ Hg]. specialize (Hg Hp). lia.
  - apply Forall_app in Hall as [Hall Hd]. inversion Hd as [|? ? Hf _]; subst.
    specialize (IH Hall). rewrite run_snoc, length_app. cbn [length].
    pose proof (driving_counter_run g burst Hg) as [_ Hdrive].
    set (g' := run g burst) in *.
    rewrite (step_beyond_max _ _ (beyond_max_not_in_band _ Hf) Hf).
    destruct (platformDeployed g') eqn:Hp.
    + specialize (Hdrive eq_refl). destruct IH as [IH | IH]; [discriminate|].
      unfold DEBOUNCE_COUNT in *.
      rewrite incr_small by (unfold Int16.max_int; lia). rewrite andb_true_r.
      destruct (Z.leb_spec 3 (consecutiveNoDetections g' + 1));
        cbn [platformDeployed consecutiveNoDetections]; [left; reflexivity | right; lia].
    + rewrite andb_false_r. left; reflexivity.
Qed.

Lemma burst_outcome (samples burst : list F32.float) :
  (Z.to_nat DEBOUNCE_COUNT <= length burst)%nat ->
  (Forall (fun d => in_band d = true) burst ->
   platformDeployed (run initial (samples ++ burst)) = true) /\
  (Forall (fun d => beyond_max d = true) burst ->
   platformDeployed (run initial (samples ++ burst)) = false).
Proof.
  intros Hlen. rewrite run_app.
  pose proof (driving_counter_run initial samples driving_counter_initial) as Hg.
  unfold DEBOUNCE_COUNT in Hlen. split; intros Hall.
  - destruct (in_band_burst _ _ Hg Hall) as [H | H]; [exact H|].
    unfold DEBOUNCE_COUNT in H. lia.
  - destruct (beyond_max_burst _ _ Hg Hall) as [H | H]; [exact H|].
    unfold DEBOUNCE_COUNT in H. lia.
Qed.

(** X6. Whatever was fed before, DEBOUNCE_COUNT or more consecutive
    in-band samples leave the platform deployed, and DEBOUNCE_COUNT or more
    consecutive samples beyond MAX_DISTANCE leave it retracted. *)
Theorem burst_forces_state (samples burst : list F32.float) :
  (Z.to_nat DEBOUNCE_COUNT <= length burst)%nat ->
  (Forall (fun d => in_band d = true) burst ->
   platformDeployed (run initial (samples ++ burst)) = true) /\
  (Forall (fun d => beyond_max d = true) burst ->
   platformDeployed (run initial (samples ++ burst)) = false).
Proof. exact (burst_outcome samples burst). Qed.

Lemma burst_forces_state_witness :
  platformDeployed (run initial (map cm [40; 18; 22] ++ map cm [14; 20; 17])) = true /\
  platformDeployed (run initial (map cm [18; 18; 18] ++ map cm [26; 400; 30; 999])) = false.
Proof.
  split.
  - apply (proj1 (burst_forces_state (map cm [40; 18; 22]) (map cm [14; 20; 17])
                    ltac:(vm_compute; lia))).
    repeat constructor.
  - apply (proj2 (burst_forces_state (map cm [18; 18; 18]) (map cm [26; 400; 30; 999])
                    ltac:(vm_compute; lia))).
    repeat constructor.
Defined.

(** ** The controller as a six-state automaton *)

Lemma classify_cases (d : F32.float) :
  (in_band d = true /\ classify d = InBand) \/
  (in_band d = false /\ beyond_max d = true /\ classify d = Beyond) \/
  (in_band d = false /\ beyond_max d = false /\ classify d = Between).
Proof. unfold classify. destruct (in_band d), (beyond_max d); auto. Qed.

Lemma phase_step (g : globals) (d : F32.float) :
  driving_counter_bounded g ->
  phase_of (step g d) = automaton_step (phase_of g) (classify d).
Proof.
  unfold driving_counter_bounded, DEBOUNCE_COUNT. intros [Hm Hd]. unfold phase_of.
  destruct (classify_cases d) as [[Hb ->] | [(Hb & Hf & ->) | (Hb & Hf & ->)]].
  - rewrite (step_in_band _ _ Hb). unfold DEBOUNCE_COUNT.
    destruct (platformDeployed g) eqn:Hp; cbn [negb automaton_step].
    + rewrite andb_false_r. cbn [platformDeployed consecutiveNoDetections]. reflexivity.
    + specialize (Hm eq_refl). rewrite incr_small by (unfold Int16.max_int; lia).
      rewrite andb_true_r. unfold DEBOUNCE_COUNT.
      destruct (3 <=? consecutiveDetections g + 1); reflexivity.
  - rewrite (step_beyond_max _ _ Hb Hf). unfold DEBOUNCE_COUNT.
    destruct (platformDeployed g) eqn:Hp; cbn [automaton_step].
    + specialize (Hd eq_refl). rewrite incr_small by (unfold Int16.max_int; lia).
      rewrite andb_true_r. unfold DEBOUNCE_COUNT.
      destruct (3 <=? consecutiveNoDetections g + 1); reflexivity.
    + rewrite andb_false_r. cbn [platformDeployed consecutiveDetections]. reflexivity.
  - rewrite (step_between _ _ Hb Hf). cbn [platformDeployed].
    destruct (platformDeployed g); reflexivity.
Qed.

(** X7. From the initial state the deployment flag and the counter that can
    trigger the next transition evolve as a six-state automaton over the
    branch each sample takes: three in-band readings in a row deploy, three
    readings beyond MAX_DISTANCE in a row retract, any other reading
    restarts the count.  The other counter, and with it the 16-bit overflow
    it can run into, has no influence. *)
Theorem controller_is_automaton (samples : list F32.float) :
  phase_of (run initial samples)
  = fold_left automaton_step (map classify samples) (Monitoring 0).
Proof.
  induction samples as [|d samples IH] using rev_ind.
  - reflexivity.
  - rewrite run_snoc, map_app, fold_left_app. cbn [map fold_left]. rewrite <- IH.
    apply phase_step, driving_counter_run, driving_counter_initial.
Qed.

(** ** The bands of the debounced controller, in microseconds of echo *)

Lemma bands_at_spec (x : F32.float) (d : Z) :
  bands_at x d = true ->
  halvable x = true /\
  in_band (halve x) = (759 <=? d) && (d <=? 1166) /\
  beyond_max (halve x) = (1458 <=? d) /\
  below_min (halve x) = (d <=? 758).
Proof.
  destruct x as [s | s | | s m e]; try discriminate. unfold bands_at. cbn [halve].
  intros Hall.
  apply andb_true_iff in Hall as [Hall H3].
  apply andb_true_iff in Hall as [Hall H2].
  apply andb_true_iff in Hall as [Hh H1].
  apply Bool.eqb_prop in H1, H2, H3. auto.
Qed.

Lemma bands_from_spec (n : nat) :
  forall first duration,
    bands_from n first = true ->
    first <= duration < first + Z.of_nat n ->
    bands_at (scaled duration) duration = true.
Proof.
  induction n as [|n IH]; intros first duration Hall Hrange.
  - lia.
  - cbn [bands_from] in Hall. apply andb_true_iff in Hall as [Hhere Hnext].
    destruct (Z.eq_dec duration first) as [-> | Hne]; [exact Hhere|].
    apply (IH (first + 1)); [exact Hnext | lia].
Qed.

Lemma echo_bands (duration : Z) :
  0 <= duration <= PULSE_TIMEOUT_US ->
  in_band (measureDistance duration) = (759 <=? duration) && (duration <=? 1166) /\
  beyond_max (measureDistance duration) = (duration =? 0) || (1458 <=? duration) /\
  below_min (measureDistance duration) = (1 <=? duration) && (duration <=? 758).
Proof.
  intros Hrange. destruct (Z.eq_dec duration 0) as [-> | Hne].
  - repeat split.
  - destruct (bands_at_spec (scaled duration) duration) as (Hh & Hb & Hf & Hc).
    + apply (bands_from_spec (Z.to_nat PULSE_TIMEOUT_US) 1).
      * vm_compute. reflexivity.
      * unfold PULSE_TIMEOUT_US in *. lia.
    + rewrite (measureDistance_halves duration Hne Hh), Hb, Hf, Hc.
      destruct (Z.eqb_spec duration 0); [contradiction|].
      destruct (Z.leb_spec 1 duration); [|lia]. repeat split.
Qed.

(** X8. For every pulse width [pulseIn] can return under the 30000
    microsecond timeout, [loop] counts a detection exactly for 759 to 1166
    microseconds, counts a departure exactly for a missing echo or 1458
    microseconds and more, and takes the final else branch otherwise (1 to
    758 and 1167 to 1457 microseconds). *)
Theorem detection_band_in_microseconds (duration : Z) :
  0 <= duration <= PULSE_TIMEOUT_US ->
  in_band (measureDistance duration) = (759 <=? duration) && (duration <=? 1166) /\
  beyond_max (measureDistance duration) = (duration =? 0) || (1458 <=? duration) /\
  below_min (measureDistance duration) = (1 <=? duration) && (duration <=? 758).
Proof. exact (echo_bands duration). Qed.

Lemma detection_band_in_microseconds_witness :
  in_band (measureDistance 1000) = (759 <=? 1000) && (1000 <=? 1166).
Proof.
  apply (detection_band_in_microseconds 1000). unfold PULSE_TIMEOUT_US. lia.
Defined.

Lemma run_echoes_run (g : globals) (durations : list Z) :
  run_echoes g durations = run g (map measureDistance durations).
Proof.
  revert g. induction durations as [|e durations IH]; intros g; [reflexivity|].
  cbn [run_echoes run map fold_left]. apply IH.
Qed.

Lemma run_echoes_app (g : globals) (a b : list Z) :
  run_echoes g (a ++ b) = run_echoes (run_echoes g a) b.
Proof. unfold run_echoes. apply fold_left_app. Qed.

(** X9. On the level of [pulseIn] results: whatever echoes came before,
    DEBOUNCE_COUNT or more consecutive echoes of 759 to 1166 microseconds
    leave the platform deployed, and DEBOUNCE_COUNT or more consecutive
    echoes that are missing or last 1458 to 30000 microseconds leave it
    retracted. *)
Theorem echo_burst_forces_state (before burst : list Z) :
  (Z.to_nat DEBOUNCE_COUNT <= length burst)%nat ->
  (Forall (fun e => 759 <= e <= 1166) burst ->
   platformDeployed (run_echoes initial (before ++ burst)) = true) /\
  (Forall (fun e => e = 0 \/ 1458 <= e <= PULSE_TIMEOUT_US) burst ->
   platformDeployed (run_echoes initial (before ++ burst)) = false).
Proof.
  intros Hlen. rewrite run_echoes_run, map_app.
  assert (Hlen' : (Z.to_nat DEBOUNCE_COUNT <= length (map measureDistance burst))%nat)
    by (rewrite length_map; exact Hlen).
  destruct (burst_outcome (map measureDistance before) (map measureDistance burst) Hlen')
    as [Hin Hfar].
  split; intros Hall; [apply Hin | apply Hfar];
    apply Forall_map; (eapply Forall_impl; [|exact Hall]);
    cbv beta; intros e He.
  - destruct (echo_bands e ltac:(unfold PULSE_TIMEOUT_US; lia)) as (-> & _ & _).
    apply andb_true_iff. split; apply Z.leb_le; lia.
  - destruct (echo_bands e ltac:(unfold PULSE_TIMEOUT_US in *; lia)) as (_ & -> & _).
    apply orb_true_iff. destruct He as [-> | He]; [left; reflexivity|].
    right. apply Z.leb_le. lia.
Qed.

Lemma echo_burst_forces_state_witness :
  platformDeployed (run_echoes initial ([0; 5000] ++ [800; 1000; 1166])) = true /\
  platformDeployed (run_echoes initial ([900; 900; 900] ++ [0; 1458; 30000])) = false.
Proof.
  split.
  - apply (proj1 (echo_burst_forces_state [0; 5000] [800; 1000; 1166]
                    ltac:(vm_compute; lia))).
    repeat constructor; lia.
  - apply (proj2 (echo_burst_forces_state [900; 900; 900] [0; 1458; 30000]
                    ltac:(vm_compute; lia))).
    unfold PULSE_TIMEOUT_US. repeat constructor; lia.
Defined.

(** ** The single-threshold sketch, in microseconds of echo *)

Lemma floor_at_spec (x : F32.float) (d : Z) :
  Simple.floor_at x d = true ->
  halvable x = true /\
  1000 * F32.to_Z (halve x) <= 17 * d < 1000 * (F32.to_Z (halve x) + 1).
Proof.
  destruct x as [s | s | | s m e]; try discriminate. unfold Simple.floor_at. cbn [halve].
  intros Hall.
  apply andb_true_iff in Hall as [Hall H2].
  apply andb_true_iff in Hall as [Hh H1].
  apply Z.leb_le in H1. apply Z.ltb_lt in H2. auto.
Qed.

Lemma floor_from_spec (n : nat) :
  forall first duration,
    Simple.floor_from n first = true ->
    first <= duration < first + Z.of_nat n ->
    Simple.floor_at (Simple.scaled duration) duration = true.
Proof.
  induction n as [|n IH]; intros first duration Hall Hrange.
  - lia.
  - cbn [Simple.floor_from] in Hall. apply andb_true_iff in Hall as [Hhere Hnext].
    destruct (Z.eq_dec duration first) as [-> | Hne]; [exact Hhere|].
    apply (IH (first + 1)); [exact Hnext | lia].
Qed.

Lemma simple_distance_floor (echo : Z) :
  0 <= echo <= Simple.ECHO_BOUND ->
  Simple.distance_of echo = 17 * echo / 1000.
Proof.
  intros Hrange. destruct (Z.eq_dec echo 0) as [-> | Hne]; [reflexivity|].
  destruct (floor_at_spec (Simple.scaled echo) echo) as (Hh & Hlo & Hhi).
  - apply (floor_from_spec (Z.to_nat Simple.ECHO_BOUND) 1).
    + vm_compute. reflexivity.
    + unfold Simple.ECHO_BOUND in *. lia.
  - unfold Simple.distance_of. change Simple.TWO with TWO.
    change (F32.mul (F32.of_Z echo) Simple.CM_PER_US) with (Simple.scaled echo).
    rewrite (div_two_halve _ Hh).
    apply (Z.div_unique _ _ _ (17 * echo - 1000 * F32.to_Z (halve (Simple.scaled echo))));
      lia.
Qed.

Lemma simple_actuate_band (echo : Z) :
  0 <= echo <= Simple.ECHO_BOUND ->
  Simple.actuate (Simple.distance_of echo) =
  [ServoWrite Simple.servoPin (if (59 <=? echo) && (echo <=? 1470) then 90 else 0)].
Proof.
  intros Hrange. rewrite (simple_distance_floor echo Hrange). unfold Simple.actuate.
  destruct (Z.ltb_spec 0 (17 * echo / 1000)) as [H0 | H0];
    destruct (Z.ltb_spec (17 * echo / 1000) 25) as [H25 | H25];
    destruct (Z.leb_spec 59 echo) as [H59 | H59];
    destruct (Z.leb_spec echo 1470) as [H1470 | H1470];
    cbn [andb]; try reflexivity; exfalso;
    Z.to_euclidean_division_equations; lia.
Qed.

(** X10. For every echo of up to 30000 microseconds the distance the
    single-threshold sketch stores is exactly the integer part of
    17 x echo / 1000: the single-precision product with 0.034, halved and
    truncated, never lands on the other side of a whole centimetre. *)
Theorem simple_distance_is_floor (echo : Z) :
  0 <= echo <= Simple.ECHO_BOUND ->
  Simple.distance_of echo = 17 * echo / 1000.
Proof. exact (simple_distance_floor echo). Qed.

Lemma simple_distance_is_floor_witness :
  Simple.distance_of 1000 = 17 * 1000 / 1000.
Proof.
  apply (simple_distance_is_floor 1000). unfold Simple.ECHO_BOUND. lia.
Defined.

(** X11. For every echo of up to 30000 microseconds an iteration of the
    single-threshold sketch sends the servo to 90 degrees exactly when the
    echo lasted 59 to 1470 microseconds, and to 0 degrees otherwise (no
    echo, closer than 1 cm, or 25 cm and beyond); it writes nothing else
    but the 100 ms delay. *)
Theorem simple_deploy_band (g : Simple.globals) (echo : Z) :
  0 <= echo <= Simple.ECHO_BOUND ->
  snd (Simple.loop g echo) =
  [ServoWrite Simple.servoPin (if (59 <=? echo) && (echo <=? 1470) then 90 else 0);
   Delay 100].
Proof.
  intros Hrange.
  change (snd (Simple.loop g echo))
    with (Simple.actuate (Simple.distance_of echo) ++ [Delay 100]).
  rewrite (simple_actuate_band echo Hrange). reflexivity.
Qed.

Lemma simple_deploy_band_witness :
  snd (Simple.loop Simple.initial 1470) = [ServoWrite Simple.servoPin 90; Delay 100] /\
  snd (Simple.loop Simple.initial 1471) = [ServoWrite Simple.servoPin 0; Delay 100].
Proof.
  split.
  - apply (simple_deploy_band Simple.initial 1470). unfold Simple.ECHO_BOUND. lia.
  - apply (simple_deploy_band Simple.initial 1471). unfold Simple.ECHO_BOUND. lia.
Defined.

(** ** The two sketches on the same echo *)

(** X12. On the same echo of up to 30000 microseconds: whenever the
    debounced controller counts a detection the single-threshold sketch
    deploys; on echoes of 59 to 758 and of 1167 to 1457 microseconds the
    sketch deploys while the controller takes its final else branch; and on
    echoes of 1458 to 1470 microseconds the sketch deploys while the
    controller counts a departure. *)
Theorem sketches_on_the_same_echo (echo : Z) :
  0 <= echo <= PULSE_TIMEOUT_US ->
  (in_band (measureDistance echo) = true ->
   Simple.actuate (Simple.distance_of echo) = [ServoWrite Simple.servoPin 90]) /\
  (59 <= echo <= 758 \/ 1167 <= echo <= 1457 ->
   Simple.actuate (Simple.distance_of echo) = [ServoWrite Simple.servoPin 90] /\
   classify (measureDistance echo) = Between) /\
  (1458 <= echo <= 1470 ->
   Simple.actuate (Simple.distance_of echo) = [ServoWrite Simple.servoPin 90] /\
   classify (measureDistance echo) = Beyond).
Proof.
  intros Hrange. destruct (echo_bands echo Hrange) as (Hb & Hf & _).
  rewrite (simple_actuate_band echo Hrange). unfold classify. rewrite Hb, Hf.
  unfold PULSE_TIMEOUT_US in Hrange.
  repeat split.
  - intros H. apply andb_true_iff in H as [H1 H2].
    apply Z.leb_le in H1, H2.
    destruct (Z.leb_spec 59 echo); [|lia]. destruct (Z.leb_spec echo 1470); [|lia].
    reflexivity.
  - destruct (Z.leb_spec 59 echo); [|lia]. destruct (Z.leb_spec echo 1470); [|lia].
    reflexivity.
  - destruct (Z.leb_spec 759 echo); destruct (Z.leb_spec echo 1166);
      destruct (Z.eqb_spec echo 0); destruct (Z.leb_spec 1458 echo);
      cbn [andb orb]; try reflexivity; lia.
  - destruct (Z.leb_spec 59 echo); [|lia]. destruct (Z.leb_spec echo 1470); [|lia].
    reflexivity.
  - destruct (Z.leb_spec 759 echo); destruct (Z.leb_spec echo 1166);
      destruct (Z.eqb_spec echo 0); destruct (Z.leb_spec 1458 echo);
      cbn [andb orb]; try reflexivity; lia.
Qed.

Lemma sketches_on_the_same_echo_witness :
  Simple.actuate (Simple.distance_of 1460) = [ServoWrite Simple.servoPin 90] /\
  classify (measureDistance 1460) = Beyond.
Proof.
  apply (proj2 (proj2 (sketches_on_the_same_echo 1460
                         ltac:(unfold PULSE_TIMEOUT_US; lia)))).
  lia.
Defined.

(** ** How often the platform can move *)

Lemma transitions_snoc (g : globals) (samples : list F32.float) (d : F32.float) :
  transitions g (samples ++ [d]) =
  transitions g samples
  + (if Bool.eqb (platformDeployed (step (run g samples) d)) (platformDeployed (run g samples))
     then 0 else 1).
Proof.
  revert g. induction samples as [|x samples IH]; intros g; cbn [app transitions].
  - cbn [run fold_left]. lia.
  - rewrite IH. change (run g (x :: samples)) with (run (step g x) samples). lia.
Qed.

Lemma transitions_paid_for (samples : list F32.float) :
  0 <= transitions initial samples /\
  DEBOUNCE_COUNT * transitions initial samples + driving_counter (run initial samples)
  <= Z.of_nat (length samples).
Proof.
  induction samples as [|d samples IH] using rev_ind.
  - cbn. lia.
  - rewrite transitions_snoc, run_snoc, length_app. cbn [length].
    pose proof (driving_counter_run initial samples driving_counter_initial) as [Hm Hd].
    set (g := run initial samples) in *. set (T := transitions initial samples) in *.
    unfold driving_counter, DEBOUNCE_COUNT in *.
    destruct (sample_cases d) as [Hb | [[Hb Hf] | [Hb Hf]]].
    + rewrite (step_in_band _ _ Hb). unfold DEBOUNCE_COUNT.
      destruct (platformDeployed g) eqn:Hp; cbn [negb].
      * rewrite andb_false_r. cbn [platformDeployed consecutiveNoDetections Bool.eqb].
        specialize (Hd eq_refl). lia.
      * specialize (Hm eq_refl). rewrite incr_small by (unfold Int16.max_int; lia).
        rewrite andb_true_r.
        destruct (Z.leb_spec 3 (consecutiveDetections g + 1));
          cbn [platformDeployed consecutiveDetections consecutiveNoDetections Bool.eqb]; lia.
    + rewrite (step_beyond_max _ _ Hb Hf). unfold DEBOUNCE_COUNT.
      destruct (platformDeployed g) eqn:Hp.
      * specialize (Hd eq_refl). rewrite incr_small by (unfold Int16.max_int; lia).
        rewrite andb_true_r.
        destruct (Z.leb_spec 3 (consecutiveNoDetections g + 1));
          cbn [platformDeployed consecutiveDetections consecutiveNoDetections Bool.eqb]; lia.
      * rewrite andb_false_r. cbn [platformDeployed consecutiveDetections Bool.eqb].
        specialize (Hm eq_refl). lia.
    + rewrite (step_between _ _ Hb Hf).
      cbn [platformDeployed consecutiveDetections consecutiveNoDetections].
      destruct (platformDeployed g) eqn:Hp; cbn [Bool.eqb].
      * specialize (Hd eq_refl). lia.
      * specialize (Hm eq_refl). lia.
Qed.

Lemma trace_delay_bound (g : globals) (samples : list F32.float) :
  total_delay (trace g samples)
  <= MEASUREMENT_DELAY * Z.of_nat (length samples) + 1815 * transitions g samples.
Proof.
  revert g. induction samples as [|d samples IH]; intros g.
  - cbn. lia.
  - cbn [trace transitions length]. rewrite total_delay_app.
    specialize (IH (step g d)). unfold MEASUREMENT_DELAY in *.
    destruct (loop_on_cases g d)
      as [[Hsame Hout] | [(Hb & Ha & Hout) | (Hb & Ha & Hout)]]; rewrite Hout.
    + rewrite Hsame, Bool.eqb_reflx.
      change (total_delay [Delay MEASUREMENT_DELAY]) with 100. lia.
    + rewrite Ha, Hb. cbn [Bool.eqb].
      change (total_delay (deploy_events ++ [Delay MEASUREMENT_DELAY])) with 1915. lia.
    + rewrite Ha, Hb. cbn [Bool.eqb].
      change (total_delay (retract_events ++ [Delay MEASUREMENT_DELAY])) with 1715. lia.
Qed.

(** X13. From the initial state the platform cannot chatter: every change
    of [platformDeployed] costs DEBOUNCE_COUNT samples, so [n] samples
    cause at most [n / DEBOUNCE_COUNT] sweeps, and processing them blocks
    for at most 100 ms per sample plus 1815 ms per sweep, that is no more
    than 705 ms per sample on average. *)
Theorem sweeps_are_rationed (samples : list F32.float) :
  0 <= transitions initial samples /\
  DEBOUNCE_COUNT * transitions initial samples <= Z.of_nat (length samples) /\
  total_delay (trace initial samples)
  <= MEASUREMENT_DELAY * Z.of_nat (length samples) + 1815 * transitions initial samples /\
  total_delay (trace initial samples) <= 705 * Z.of_nat (length samples).
Proof.
  destruct (transitions_paid_for samples) as [Hpos Hpaid].
  pose proof (trace_delay_bound initial samples) as Hdelay.
  pose proof (driving_counter_run initial samples driving_counter_initial) as [Hm Hd].
  assert (Hdrive : 0 <= driving_counter (run initial samples)).
  { unfold driving_counter.
    destruct (platformDeployed (run initial samples));
      [specialize (Hd eq_refl) | specialize (Hm eq_refl)]; lia. }
  unfold DEBOUNCE_COUNT, MEASUREMENT_DELAY in *. repeat split; lia.
Qed.

(** ** The single-threshold sketch has no memory *)

Lemma simple_trace_snoc (g : Simple.globals) (echoes : list Z) (e : Z) :
  Simple.trace g (echoes ++ [e]) =
  Simple.trace g echoes ++ Simple.actuate (Simple.distance_of e) ++ [Delay 100].
Proof.
  revert g. induction echoes as [|x echoes IH]; intros g; cbn [app Simple.trace].
  - rewrite app_nil_r. reflexivity.
  - rewrite IH, app_assoc. reflexivity.
Qed.

(** X14. In the single-threshold sketch the servo stands, after any
    sequence of echoes, where the last echo alone puts it (90 degrees for a
    stored distance strictly between 0 and 25, else 0 degrees), whatever
    came before; before the first iteration it stands at 0 degrees. *)
Theorem simple_servo_follows_last_echo (echoes : list Z) (e : Z) :
  last_servo_write Simple.servoPin (Simple.setup ++ Simple.trace Simple.initial []) = Some 0 /\
  last_servo_write Simple.servoPin
    (Simple.setup ++ Simple.trace Simple.initial (echoes ++ [e]))
  = Some (if (0 <? Simple.distance_of e) && (Simple.distance_of e <? 25) then 90 else 0).
Proof.
  split; [reflexivity|].
  rewrite simple_trace_snoc, !last_servo_write_app. unfold Simple.actuate.
  destruct ((0 <? Simple.distance_of e) && (Simple.distance_of e <? 25)); reflexivity.
Qed.
